(** * Signal strategy engine of the crypto signal tool

    A shallow embedding of [js/strategies/base.js], [js/strategies/feargreed.js]
    and the aggregation part of [js/main.js], followed by the properties of
    the threshold evaluation, the historical back-fill, the settings update,
    the chart projection and the de-duplicating aggregator.

    Conventions of the embedding.
    - A JavaScript Number that the engine handles (index values, thresholds,
      epoch seconds) is an integer, embedded as [Z].  On an integer Number
      below 10^21 in magnitude [parseInt] is the identity and the template
      literal prints its decimal digits; this is the domain of the model
      (NaN, infinities and fractions are outside it).
    - A string is a [string]; a date key is the [YYYY-MM-DD] prefix that
      [Date.prototype.toISOString] prints.
    - A call that can throw returns a [result]: [Ok v] or [Throw e]. *)

From stdpp Require Import gmap strings list sorting pretty.
From Stdlib Require Import ZArith Lia Ascii.
From Stdlib Require QArith.

Local Open Scope Z_scope.

(** ** Exceptions and the error monad *)

Inductive Exn : Type :=
  | RangeError (msg : string)
  | TypeError (msg : string)
  | Error (msg : string).

Inductive result (A : Type) : Type :=
  | Ok (a : A)
  | Throw (e : Exn).
Arguments Ok {A} a.
Arguments Throw {A} e.

#[export] Instance result_ret : MRet result := @Ok.

#[export] Instance result_bind : MBind result := λ A B k r,
  match r with
  | Ok a => k a
  | Throw e => Throw e
  end.

(** [arr.forEach(body)] where the body updates an accumulator and may throw:
    the first exception leaves the loop. *)
Fixpoint forEach {A S : Type} (arr : list A) (body : S → A → result S) (acc : S)
  : result S :=
  match arr with
  | [] => Ok acc
  | x :: rest => acc' ← body acc x; forEach rest body acc'
  end.

(** ** js/strategies/base.js *)

Module Base.

(** The ['buy' | 'sell'] of the [SignalMarker] typedef. *)
Inductive SignalType : Type := buy | sell.

#[export] Instance SignalType_eq_dec : EqDecision SignalType.
Proof. solve_decision. Defined.

(** The string a type prints as inside a template literal. *)
Definition type_toString (t : SignalType) : string :=
  match t with
  | buy => "buy"
  | sell => "sell"
  end.

Record SignalMarker : Type := {
  time : string;
  type : SignalType;
  text : string;
  reason : string;
  strategyId : string
}.

#[export] Instance SignalMarker_eq_dec : EqDecision SignalMarker.
Proof. solve_decision. Defined.

Definition createSignalMarker (time : string) (type : SignalType)
    (text reason strategyId : string) : SignalMarker :=
  {| time := time; type := type; text := text; reason := reason;
     strategyId := strategyId |}.

(** The object handed to the charting library. *)
Module ChartMarker.
Record t : Type := {
  time : string;
  position : string;
  color : string;
  shape : string;
  text : string
}.
End ChartMarker.

(** [s || d] on strings: the empty string is the only falsy one. *)
Definition or_else (s d : string) : string :=
  match s with
  | EmptyString => d
  | String _ _ => s
  end.

Definition toChartMarker (signal : SignalMarker) : ChartMarker.t :=
  if decide (type signal = buy) then
    {| ChartMarker.time := time signal;
       ChartMarker.position := "belowBar";
       ChartMarker.color := "#00d26a";
       ChartMarker.shape := "arrowUp";
       ChartMarker.text := or_else (text signal) "Buy" |}
  else
    {| ChartMarker.time := time signal;
       ChartMarker.position := "aboveBar";
       ChartMarker.color := "#ff6b6b";
       ChartMarker.shape := "arrowDown";
       ChartMarker.text := or_else (text signal) "Sell" |}.

End Base.
Import Base.

(** ** Candles (built in js/api/bitbank.js, read-only here) *)

Module Candle.
Record t : Type := {
  time : string;
  open : QArith_base.Q;
  high : QArith_base.Q;
  low : QArith_base.Q;
  close : QArith_base.Q;
  volume : QArith_base.Q
}.
End Candle.

(** ** The built-in [Date], as far as [toISOString().split('T')[0]] needs it

    The definitions follow ECMA-262, "Time Values and Time Range", "Day
    Number", "Year Number", "Month Number", "Date Number" and
    [Date.prototype.toISOString]. *)

Module JsDate.

Definition msPerDay : Z := 86400000.

(** A time value beyond this magnitude is clipped to NaN by [new Date]. *)
Definition maxTimeValue : Z := 8640000000000000.

Definition Day (t : Z) : Z := t `div` msPerDay.

Definition DayFromYear (y : Z) : Z :=
  365 * (y - 1970) + (y - 1969) `div` 4 - (y - 1901) `div` 100
  + (y - 1601) `div` 400.

(** The largest [y] with [DayFromYear y <= day]: a first guess from the
    mean year length, then one step of correction either way. *)
Definition YearFromDay (day : Z) : Z :=
  let y0 := 1970 + (400 * day) `div` 146097 in
  if day <? DayFromYear y0 then y0 - 1
  else if DayFromYear (y0 + 1) <=? day then y0 + 1
  else y0.

Definition DaysInYear (y : Z) : Z :=
  if negb (y `mod` 4 =? 0) then 365
  else if negb (y `mod` 100 =? 0) then 366
  else if negb (y `mod` 400 =? 0) then 365
  else 366.

Definition InLeapYear (y : Z) : Z :=
  if DaysInYear y =? 366 then 1 else 0.

(** Month number, 0 for January, from the day within the year. *)
Definition MonthFromDay (dayWithinYear leap : Z) : Z :=
  if dayWithinYear <? 31 then 0
  else if dayWithinYear <? 59 + leap then 1
  else if dayWithinYear <? 90 + leap then 2
  else if dayWithinYear <? 120 + leap then 3
  else if dayWithinYear <? 151 + leap then 4
  else if dayWithinYear <? 181 + leap then 5
  else if dayWithinYear <? 212 + leap then 6
  else if dayWithinYear <? 243 + leap then 7
  else if dayWithinYear <? 273 + leap then 8
  else if dayWithinYear <? 304 + leap then 9
  else if dayWithinYear <? 334 + leap then 10
  else 11.

(** Day of the month, from 1. *)
Definition DateFromDay (dayWithinYear leap : Z) : Z :=
  match MonthFromDay dayWithinYear leap with
  | 0 => dayWithinYear + 1
  | 1 => dayWithinYear - 30
  | 2 => dayWithinYear - 58 - leap
  | 3 => dayWithinYear - 89 - leap
  | 4 => dayWithinYear - 119 - leap
  | 5 => dayWithinYear - 150 - leap
  | 6 => dayWithinYear - 180 - leap
  | 7 => dayWithinYear - 211 - leap
  | 8 => dayWithinYear - 242 - leap
  | 9 => dayWithinYear - 272 - leap
  | 10 => dayWithinYear - 303 - leap
  | _ => dayWithinYear - 333 - leap
  end.

Fixpoint zeros (k : nat) : string :=
  match k with
  | O => ""
  | S k' => "0" +:+ zeros k'
  end.

(** [String(n).padStart(width, '0')] of a natural number. *)
Definition padStart (width : nat) (n : Z) : string :=
  let digits := pretty n in
  zeros (width - String.length digits) +:+ digits.

(** Years 0 to 9999 print with four digits, the others with a sign and
    six. *)
Definition yearString (y : Z) : string :=
  if (0 <=? y) && (y <=? 9999) then padStart 4 y
  else if 0 <=? y then "+" +:+ padStart 6 y
  else "-" +:+ padStart 6 (- y).

(** The text before the ['T'] of the ISO string of time value [t]. *)
Definition isoDate (t : Z) : string :=
  let day := Day t in
  let y := YearFromDay day in
  let dayWithinYear := day - DayFromYear y in
  let leap := InLeapYear y in
  yearString y +:+ "-" +:+ padStart 2 (MonthFromDay dayWithinYear leap + 1)
  +:+ "-" +:+ padStart 2 (DateFromDay dayWithinYear leap).

(** [new Date(t).toISOString().split('T')[0]] for an integer [t]. *)
Definition toISODate (t : Z) : result string :=
  if Z.abs t <=? maxTimeValue then Ok (isoDate t)
  else Throw (RangeError "Invalid time value").

End JsDate.

(** ** js/strategies/feargreed.js *)

Module FearGreed.

(** One entry of [fearGreedHistory]. *)
Record FgData : Type := {
  timestamp : Z;
  value : Z
}.

(** The [extraData] argument; [None] is [undefined]. *)
Record ExtraData : Type := {
  fearGreedIndex : option Z;
  fearGreedHistory : option (list FgData)
}.

(** Instance state: the fields of [SignalStrategy] and the two thresholds. *)
Record FearGreedStrategy : Type := {
  id : string;
  name : string;
  enabled : bool;
  buyThreshold : Z;
  sellThreshold : Z
}.

(** [new FearGreedStrategy()] *)
Definition new : FearGreedStrategy :=
  {| id := "feargreed"; name := "Fear & Greed Index"; enabled := true;
     buyThreshold := 20; sellThreshold := 80 |}.

Definition setEnabled (this : FearGreedStrategy) (e : bool) : FearGreedStrategy :=
  {| id := id this; name := name this; enabled := e;
     buyThreshold := buyThreshold this; sellThreshold := sellThreshold this |}.

Definition isEnabled (this : FearGreedStrategy) : bool := enabled this.

(** [parseInt] of an integer Number. *)
Definition parseInt (n : Z) : Z := n.

(** [`${n}`] of an integer Number. *)
Definition Number_toString (n : Z) : string := pretty n.

Definition _getClassification (index : Z) : string :=
  if index <=? 20 then "Extreme Fear"
  else if index <=? 40 then "Fear"
  else if index <=? 60 then "Neutral"
  else if index <=? 80 then "Greed"
  else "Extreme Greed".

(** [None] is the [null] the source returns. *)
Definition _evaluateIndex (this : FearGreedStrategy) (index : Z) (time : string)
  : option SignalMarker :=
  if index <=? buyThreshold this then
    Some (createSignalMarker time buy ("FG:" +:+ Number_toString index)
            (_getClassification index) (id this))
  else if index >=? sellThreshold this then
    Some (createSignalMarker time sell ("FG:" +:+ Number_toString index)
            (_getClassification index) (id this))
  else None.

(** The partial settings object; [None] is an absent ([undefined]) field. *)
Module Settings.
Record t : Type := {
  buyThreshold : option Z;
  sellThreshold : option Z
}.
End Settings.


Definition updateSettings (this : FearGreedStrategy) (settings : Settings.t)
  : FearGreedStrategy :=
  let this1 :=
    match Settings.buyThreshold settings with
    | Some v =>
        {| id := id this; name := name this; enabled := enabled this;
           buyThreshold := Z.max 0 (Z.min 100 v);
           sellThreshold := sellThreshold this |}
    | None => this
    end in
  match Settings.sellThreshold settings with
  | Some v =>
      {| id := id this1; name := name this1; enabled := enabled this1;
         buyThreshold := buyThreshold this1;
         sellThreshold := Z.max 0 (Z.min 100 v) |}
  | None => this1
  end.

(** The [candleMap] of [calculate], after the [candles.forEach]. *)
Definition candleMap (candles : list Candle.t) : gmap string Candle.t :=
  foldl (λ m candle, <[Candle.time candle := candle]> m) ∅ candles.

Definition has (m : gmap string Candle.t) (key : string) : bool :=
  bool_decide (is_Some (m !! key)).

Definition calculate (this : FearGreedStrategy) (candles : list Candle.t)
    (extraData : ExtraData) : result (list SignalMarker) :=
  if negb (enabled this) then Ok []
  else
    let signals : list SignalMarker := [] in
    let fearGreedIndex := fearGreedIndex extraData in
    let fearGreedHistory := default [] (fearGreedHistory extraData) in
    if bool_decide (0 < length fearGreedHistory)%nat
       && bool_decide (0 < length candles)%nat then
      let candleMap := candleMap candles in
      forEach fearGreedHistory (λ signals fgData,
        let timestamp := parseInt (timestamp fgData) in
        dateStr ← JsDate.toISODate (timestamp * 1000);
        let value := parseInt (value fgData) in
        if has candleMap dateStr then
          match _evaluateIndex this value dateStr with
          | Some signal => Ok (signals ++ [signal])
          | None => Ok signals
          end
        else Ok signals) signals
    else
      match fearGreedIndex with
      | Some index =>
          if bool_decide (0 < length candles)%nat then
            match candles !! (length candles - 1)%nat with
            | Some latestCandle =>
                match _evaluateIndex this index (Candle.time latestCandle) with
                | Some signal => Ok (signals ++ [signal])
                | None => Ok signals
                end
            | None => Throw (TypeError "latestCandle is undefined")
            end
          else Ok signals
      | None => Ok signals
      end.

End FearGreed.

Import FearGreed.

(** ** The built-in insertion-ordered [Map] and [Array.prototype.sort] *)

Module JsMap.

(** Entries in insertion order; keys are strings. *)
Definition t (V : Type) : Type := list (string * V).

Definition empty {V : Type} : t V := [].

Definition has {V : Type} (m : t V) (key : string) : bool :=
  bool_decide (key ∈ m.*1).

(** A present key keeps its place and takes the new value, a new key goes
    to the end. *)
Fixpoint set {V : Type} (m : t V) (key : string) (v : V) : t V :=
  match m with
  | [] => [(key, v)]
  | (k, w) :: m' =>
      if decide (k = key) then (k, v) :: m' else (k, w) :: set m' key v
  end.

Definition values {V : Type} (m : t V) : list V := m.*2.

End JsMap.

Module JsArray.

(** Insertion of [x] before the first element it does not sort after. *)
Fixpoint insert {A : Type} (comparefn : A → A → Z) (x : A) (l : list A)
  : list A :=
  match l with
  | [] => [x]
  | y :: l' =>
      if comparefn x y <=? 0 then x :: y :: l'
      else y :: insert comparefn x l'
  end.

(** [arr.sort(comparefn)]: the sort is stable, so for a consistent
    comparator the result is the one of insertion sort. *)
Definition sort {A : Type} (comparefn : A → A → Z) (arr : list A) : list A :=
  foldr (insert comparefn) [] arr.

End JsArray.

(** ** js/main.js: the strategies and the aggregation *)

Module Main.

(** What the application uses of a strategy object. *)
Class SignalStrategy (S : Type) : Type := {
  strategy_isEnabled : S → bool;
  strategy_calculate :
    S → list Candle.t → ExtraData → result (list SignalMarker)
}.

(** An instance of the base class itself: [calculate] is not implemented. *)
Record BaseStrategy : Type := {
  base_id : string;
  base_name : string;
  base_enabled : bool
}.

#[export] Instance BaseStrategy_strategy : SignalStrategy BaseStrategy := {|
  strategy_isEnabled := base_enabled;
  strategy_calculate := λ _ _ _,
    Throw (Error "calculate() must be implemented by subclass")
|}.

#[export] Instance FearGreedStrategy_strategy
  : SignalStrategy FearGreedStrategy := {|
  strategy_isEnabled := FearGreed.isEnabled;
  strategy_calculate := FearGreed.calculate
|}.

(** An element of [this.strategies]: an object of some strategy class. *)
Record Strategy : Type := strategy_object {
  strategy_class : Type;
  strategy_methods : SignalStrategy strategy_class;
  strategy_self : strategy_class
}.
Arguments strategy_object {_ _} _.

Definition isEnabled (s : Strategy) : bool :=
  @strategy_isEnabled _ (strategy_methods s) (strategy_self s).

Definition calculate (s : Strategy) (candles : list Candle.t)
    (extraData : ExtraData) : result (list SignalMarker) :=
  @strategy_calculate _ (strategy_methods s) (strategy_self s) candles extraData.

(** The part of [this.state] that the aggregation reads and writes.
    [fearGreedIndex] is [null] only before the first fetch, when [candles]
    is still empty. *)
Record State : Type := {
  candles : list Candle.t;
  fearGreedIndex : option Z;
  fearGreedHistory : list FgData;
  signals : list SignalMarker
}.

(** The key [`${signal.time}-${signal.type}`]. *)
Definition key (signal : SignalMarker) : string :=
  time signal +:+ "-" +:+ type_toString (type signal).

Section Aggregator.

(** [String.prototype.localeCompare] of the host: negative, zero or
    positive. *)
Variable localeCompare : string → string → Z.

Definition _deduplicateSignals (signals : list SignalMarker)
  : list SignalMarker :=
  let seen :=
    foldl (λ seen signal,
      let key := key signal in
      if negb (JsMap.has seen key) then JsMap.set seen key signal
      else seen) JsMap.empty signals in
  JsArray.sort (λ a b, localeCompare (time b) (time a)) (JsMap.values seen).

(** The loop over [this.strategies] that fills [allSignals]. *)
Definition collectSignals (strategies : list Strategy) (state : State)
  : result (list SignalMarker) :=
  forEach strategies (λ allSignals strategy,
    if isEnabled strategy then
      signals ← calculate strategy (candles state)
                 {| FearGreed.fearGreedIndex := fearGreedIndex state;
                    FearGreed.fearGreedHistory := Some (fearGreedHistory state) |};
      Ok (allSignals ++ signals)
    else Ok allSignals) [].

(** The state after [_recalculateSignals]; the chart and the history
    panel receive [signals] of that state. *)
Definition _recalculateSignals (strategies : list Strategy) (state : State)
  : result State :=
  if bool_decide (length (candles state) = 0%nat) then Ok state
  else
    allSignals ← collectSignals strategies state;
    let uniqueSignals := _deduplicateSignals allSignals in
    Ok {| candles := candles state;
          fearGreedIndex := fearGreedIndex state;
          fearGreedHistory := fearGreedHistory state;
          signals := uniqueSignals |}.

End Aggregator.

End Main.

Import Main.

(** ** js/strategies/feargreed.js: the exported classification helper *)

Module Classification.
Record t : Type := {
  classification : string;
  cssClass : string
}.
End Classification.

Definition getFearGreedClassification (index : Z) : Classification.t :=
  if index <=? 20 then
    {| Classification.classification := "Extreme Fear";
       Classification.cssClass := "extreme-fear" |}
  else if index <=? 40 then
    {| Classification.classification := "Fear";
       Classification.cssClass := "fear" |}
  else if index <=? 60 then
    {| Classification.classification := "Neutral";
       Classification.cssClass := "neutral" |}
  else if index <=? 80 then
    {| Classification.classification := "Greed";
       Classification.cssClass := "greed" |}
  else
    {| Classification.classification := "Extreme Greed";
       Classification.cssClass := "extreme-greed" |}.

(** ** js/api/feargreed.js: the badge helpers *)

Module Api.

Definition getFearGreedCssClass (value : Z) : string :=
  if value <=? 20 then "extreme-fear"
  else if value <=? 40 then "fear"
  else if value <=? 60 then "neutral"
  else if value <=? 80 then "greed"
  else "extreme-greed".

Definition getFearGreedText (value : Z) : string :=
  if value <=? 20 then "Extreme Fear"
  else if value <=? 40 then "Fear"
  else if value <=? 60 then "Neutral"
  else if value <=? 80 then "Greed"
  else "Extreme Greed".

End Api.

(** ** js/api/bitbank.js: the tail of [fetchCandlestickMultiYear] *)

Module Bitbank.
Section Bitbank.

Variable localeCompare : string → string → Z.

(** [new Map(entries)]: one [set] per entry, in order. *)
Definition Map_of_entries {V : Type} (entries : list (string * V))
  : JsMap.t V :=
  foldl (λ m entry, JsMap.set m entry.1 entry.2) JsMap.empty entries.

(** The [uniqueCandles] computed from [allCandles]. *)
Definition uniqueCandles (allCandles : list Candle.t) : list Candle.t :=
  JsArray.sort (λ a b, localeCompare (Candle.time a) (Candle.time b))
    (JsMap.values (Map_of_entries ((λ c, (Candle.time c, c)) <$> allCandles))).

End Bitbank.
End Bitbank.

(** ** js/api/bitbank.js: what [fetchCandlestick] does with the response,
    and the loop of [fetchCandlestickMultiYear] *)

Module BitbankFetch.

(** One entry of [ohlcv]: the array [open, high, low, close, volume,
    timestamp], five strings and a time in milliseconds. *)
Record Row : Type := {
  open : string;
  high : string;
  low : string;
  close : string;
  volume : string;
  timestamp : Z
}.

Record Candlestick : Type := { ohlcv : list Row }.

(** [data.data]; [None] is an absent field. *)
Record Data : Type := {
  code : option Z;
  candlestick : option (list Candlestick)
}.

(** The JSON body. *)
Record Json : Type := {
  success : Z;
  data : option Data
}.

Record Response : Type := {
  ok : bool;
  status : Z;
  json : Json
}.

Section Fetch.

Variable localeCompare : string → string → Z.
(** [parseFloat] of a price string. *)
Variable parseFloat : string → QArith_base.Q.

(** The callback of [ohlcv.map]. *)
Definition toCandle (candle : Row) : result Candle.t :=
  dateStr ← JsDate.toISODate (timestamp candle);
  Ok {| Candle.time := dateStr;
        Candle.open := parseFloat (open candle);
        Candle.high := parseFloat (high candle);
        Candle.low := parseFloat (low candle);
        Candle.close := parseFloat (close candle);
        Candle.volume := parseFloat (volume candle) |}.

(** [arr.map(f)] for a callback that may throw. *)
Definition map_result {A B : Type} (f : A → result B) (arr : list A)
  : result (list B) :=
  forEach arr (λ acc x, y ← f x; Ok (acc ++ [y])) [].

(** [data.data?.code || 'Unknown API error'] as the message of [Error]. *)
Definition apiErrorMessage (d : option Data) : string :=
  match d ≫= code with
  | Some c => if c =? 0 then "Unknown API error" else Number_toString c
  | None => "Unknown API error"
  end.

(** [fetchCandlestick] from the response on; the [catch] logs and throws the
    same exception again. *)
Definition fetchCandlestick_response (response : Response)
  : result (list Candle.t) :=
  if negb (ok response) then
    Throw (Error ("HTTP error! status: " +:+ Number_toString (status response)))
  else
    let data := json response in
    if negb (success data =? 1) then
      Throw (Error (apiErrorMessage (BitbankFetch.data data)))
    else
      match BitbankFetch.data data with
      | None => Throw (TypeError "data.data is undefined")
      | Some d =>
          match candlestick d with
          | None | Some [] => Ok []
          | Some (first :: _) =>
              candles ← map_result toCandle (ohlcv first);
              Ok (JsArray.sort
                    (λ a b, localeCompare (Candle.time a) (Candle.time b))
                    candles)
          end
      end.

(** [fetchCandlestick(pair, candleType, year.toString())] for the pair and
    candle type at hand, as a function of the year. *)
Variable fetchCandlestick : Z → result (list Candle.t).

(** [allCandles] after the loop over [i = 0 .. yearsBack]: a year whose
    fetch throws is skipped. *)
Definition allCandles (currentYear yearsBack : Z) : list Candle.t :=
  foldl (λ allCandles i,
    let year := currentYear - i in
    match fetchCandlestick year with
    | Ok candles => allCandles ++ candles
    | Throw _ => allCandles
    end) [] (seqZ 0 (yearsBack + 1)).

Definition fetchCandlestickMultiYear (currentYear yearsBack : Z)
  : list Candle.t :=
  Bitbank.uniqueCandles localeCompare (allCandles currentYear yearsBack).

End Fetch.
End BitbankFetch.

(** ** js/chart/chart.js: [setMarkers] *)

Module Chart.
Section Chart.

Variable localeCompare : string → string → Z.

(** The new value of [this.markers], which is also what the candlestick
    series receives. *)
Definition setMarkers (signals : list SignalMarker) : list ChartMarker.t :=
  if bool_decide (length signals = 0%nat) then []
  else
    let chartMarkers := toChartMarker <$> signals in
    JsArray.sort
      (λ a b, localeCompare (ChartMarker.time a) (ChartMarker.time b))
      chartMarkers.

End Chart.
End Chart.

(** ** js/main.js: the history panel and the refresh timer *)

Module Panel.

(** The [recentSignals] of [_updateSignalHistory]: [signals.slice(0, 10)]. *)
Definition recentSignals (signals : list SignalMarker) : list SignalMarker :=
  take 10 signals.

End Panel.

Module AutoUpdate.

(** The timers of the host: the handles of the intervals that are running
    and the next handle [setInterval] gives out (handles are positive). *)
Record Host : Type := {
  running : gset positive;
  fresh : positive
}.

(** The application side: [this.updateInterval] ([None] is [null]) and
    [this.state.autoUpdate]. *)
Record App : Type := {
  updateInterval : option positive;
  autoUpdate : bool
}.

Definition setInterval (host : Host) : positive * Host :=
  (fresh host,
   {| running := {[fresh host]} ∪ running host;
      fresh := Pos.succ (fresh host) |}).

(** Clearing a handle that is not running does nothing. *)
Definition clearInterval (host : Host) (handle : positive) : Host :=
  {| running := running host ∖ {[handle]}; fresh := fresh host |}.

Definition _startAutoUpdate (st : App * Host) : App * Host :=
  let '(app, host) := st in
  match updateInterval app with
  | Some _ => st
  | None =>
      let '(handle, host') := setInterval host in
      ({| updateInterval := Some handle; autoUpdate := autoUpdate app |},
       host')
  end.

Definition _stopAutoUpdate (st : App * Host) : App * Host :=
  let '(app, host) := st in
  match updateInterval app with
  | Some handle =>
      ({| updateInterval := None; autoUpdate := autoUpdate app |},
       clearInterval host handle)
  | None => st
  end.

(** The change handler of the auto-update checkbox. *)
Definition onAutoUpdateChange (checked : bool) (st : App * Host) : App * Host :=
  let '(app, host) := st in
  let app' := {| updateInterval := updateInterval app; autoUpdate := checked |} in
  if autoUpdate app' then _startAutoUpdate (app', host)
  else _stopAutoUpdate (app', host).

(** What can happen to the timer after the constructor. *)
Inductive Action : Type :=
  | Start
  | Stop
  | Toggle (checked : bool).

Definition step (st : App * Host) (a : Action) : App * Host :=
  match a with
  | Start => _startAutoUpdate st
  | Stop => _stopAutoUpdate st
  | Toggle checked => onAutoUpdateChange checked st
  end.

(** The constructor's state, on a host with no interval of this page. *)
Definition initial : App * Host :=
  ({| updateInterval := None; autoUpdate := true |},
   {| running := ∅; fresh := 1%positive |}).

End AutoUpdate.

(** ** Notions used to state the properties *)

(** Strategy states that the application can produce: the constructor,
    then any sequence of [setEnabled] and [updateSettings] calls. *)
Inductive reachable : FearGreedStrategy → Prop :=
  | reachable_new : reachable FearGreed.new
  | reachable_setEnabled this e :
      reachable this → reachable (setEnabled this e)
  | reachable_updateSettings this settings :
      reachable this → reachable (updateSettings this settings).


(** A value crosses a threshold of the strategy. *)
Definition crosses (this : FearGreedStrategy) (v : Z) : Prop :=
  v ≤ buyThreshold this ∨ sellThreshold this ≤ v.

#[export] Instance crosses_dec this v : Decision (crosses this v).
Proof. unfold crosses. apply _. Defined.

(** The five buckets of the classification, with their ranges and labels. *)
Inductive Bucket : Type :=
  | ExtremeFear | Fear | Neutral | Greed | ExtremeGreed.

Definition bucket_label (b : Bucket) : string :=
  match b with
  | ExtremeFear => "Extreme Fear"
  | Fear => "Fear"
  | Neutral => "Neutral"
  | Greed => "Greed"
  | ExtremeGreed => "Extreme Greed"
  end.

Definition in_bucket (b : Bucket) (v : Z) : Prop :=
  match b with
  | ExtremeFear => v ≤ 20
  | Fear => 21 ≤ v ≤ 40
  | Neutral => 41 ≤ v ≤ 60
  | Greed => 61 ≤ v ≤ 80
  | ExtremeGreed => 81 ≤ v ≤ 100
  end.

(** The time value of a history point lies in the range of a valid [Date]. *)
Definition in_date_range (fgData : FgData) : Prop :=
  Z.abs (timestamp fgData * 1000) ≤ JsDate.maxTimeValue.

(** The UTC calendar date key of a history point. *)
Definition dateKey (fgData : FgData) : string :=
  JsDate.isoDate (timestamp fgData * 1000).

(** The marker of a history point or of the live value: buy at or below the
    buy threshold, sell otherwise. *)
Definition marker_at (this : FearGreedStrategy) (time : string) (v : Z)
  : SignalMarker :=
  {| time := time;
     type := if bool_decide (v ≤ buyThreshold this) then buy else sell;
     text := "FG:" +:+ Number_toString v;
     reason := _getClassification v;
     strategyId := id this |}.

(** Historical mode as the specification words it: the points whose date key
    is the key of a candle and whose value crosses a threshold, in the order
    of the history, each with its marker. *)
Definition backfill_spec (this : FearGreedStrategy) (candles : list Candle.t)
    (history : list FgData) : list SignalMarker :=
  (λ fgData, marker_at this (dateKey fgData) (value fgData)) <$>
  filter (λ fgData, dateKey fgData ∈ Candle.time <$> candles
                    ∧ crosses this (value fgData)) history.

(** The precondition of historical mode and the one of live mode. *)
Definition historical_mode (candles : list Candle.t) (extraData : ExtraData)
  : Prop :=
  default [] (FearGreed.fearGreedHistory extraData) ≠ [] ∧ candles ≠ [].

Definition live_mode (candles : list Candle.t) (extraData : ExtraData) : Prop :=
  ¬ historical_mode candles extraData
  ∧ is_Some (FearGreed.fearGreedIndex extraData) ∧ candles ≠ [].

(** The fixed-width date key [YYYY-MM-DD]: ten characters, digits around two
    hyphens. *)
Definition isDigit (c : Ascii.ascii) : bool :=
  bool_decide (48 ≤ Z.of_N (Ascii.N_of_ascii c) ≤ 57).

Definition isDateKey (s : string) : bool :=
  match s with
  | String y1 (String y2 (String y3 (String y4 (String "-"%char
      (String m1 (String m2 (String "-"%char (String d1 (String d2 "")))))))))  =>
      forallb isDigit [y1; y2; y3; y4; m1; m2; d1; d2]
  | _ => false
  end.

(** A string of exactly [n] decimal digits. *)
Fixpoint allDigits (s : string) : bool :=
  match s with
  | EmptyString => true
  | String c s' => isDigit c && allDigits s'
  end.

Definition digits (n : nat) (s : string) : bool :=
  bool_decide (String.length s = n) && allDigits s.

(** The time values of the years 0000 to 9999, the ones that print with a
    four-digit year. *)
Definition four_digit_year (t : Z) : Prop :=
  -62167219200000 ≤ t ≤ 253402300799999.

(** The pair that de-duplication is about. *)
Definition pair_of (signal : SignalMarker) : string * SignalType :=
  (time signal, type signal).

(** [a] may stand before [b] in a sequence that descends by time, in the
    lexical order of strings. *)
Definition time_descending (a b : SignalMarker) : Prop :=
  (time b ≤ time a)%string.

(** Index [i] holds the first marker of [signals] with its (time, type). *)
Definition first_with_pair (signals : list SignalMarker) (i : nat)
    (m : SignalMarker) : Prop :=
  signals !! i = Some m
  ∧ ∀ j m', (j < i)%nat → signals !! j = Some m' → pair_of m' ≠ pair_of m.

(** A comparator agrees with the lexical order on date keys. *)
Definition lexical_on_date_keys (localeCompare : string → string → Z) : Prop :=
  ∀ a b, isDateKey a = true → isDateKey b = true →
         (localeCompare a b ?= 0) = (a ?= b)%string.

(** The comparison by code units, as a comparator. *)
Definition codeUnitCompare (a b : string) : Z :=
  match (a ?= b)%string with
  | Lt => -1
  | Eq => 0
  | Gt => 1
  end.

(** A candle with the given date key. *)
Definition candle_at (t : string) : Candle.t :=
  {| Candle.time := t;
     Candle.open := QArith_base.Qmake 0 1; Candle.high := QArith_base.Qmake 0 1;
     Candle.low := QArith_base.Qmake 0 1; Candle.close := QArith_base.Qmake 0 1;
     Candle.volume := QArith_base.Qmake 0 1 |}.

(** Thresholds set the wrong way round: buy at 90, sell at 10. *)
Definition inverted : FearGreedStrategy :=
  updateSettings FearGreed.new
    {| Settings.buyThreshold := Some 90; Settings.sellThreshold := Some 10 |}.

(** The [seen] map of [_deduplicateSignals] when its loop has run over
    [signals]. *)
Definition seen_after (signals : list SignalMarker) : JsMap.t SignalMarker :=
  foldl (λ seen signal,
    let key := key signal in
    if negb (JsMap.has seen key) then JsMap.set seen key signal
    else seen) JsMap.empty signals.

(** The string of a (time, type) pair, so that [key] is [pair_key ∘ pair_of]. *)
Definition pair_key (p : string * SignalType) : string :=
  p.1 +:+ "-" +:+ type_toString p.2.

(** The [extraData] that the aggregation hands to every strategy. *)
Definition extraData_of (state : State) : ExtraData :=
  {| FearGreed.fearGreedIndex := Main.fearGreedIndex state;
     FearGreed.fearGreedHistory := Some (Main.fearGreedHistory state) |}.

(** A strategy class for examples: an object that is enabled and emits the
    markers it holds, whatever the input. *)
Record FixedStrategy : Type := { emits : list SignalMarker }.

#[export] Instance FixedStrategy_strategy : SignalStrategy FixedStrategy := {|
  strategy_isEnabled := λ _, true;
  strategy_calculate := λ this _ _, Ok (emits this)
|}.

(** Two registered strategies that collide on the buy marker of 2024-01-01,
    a disabled one, and the state they run on. *)
Definition example_strategies : list Strategy :=
  [ strategy_object
      {| emits := [ createSignalMarker "2024-01-01" buy "A1" "" "first";
                    createSignalMarker "2024-03-01" sell "A2" "" "first";
                    createSignalMarker "2024-02-01" buy "A3" "" "first" ] |};
    strategy_object (setEnabled FearGreed.new false);
    strategy_object
      {| emits := [ createSignalMarker "2024-02-01" sell "B1" "" "second";
                    createSignalMarker "2024-01-01" buy "B2" "" "second" ] |} ].

Definition example_state : State :=
  {| Main.candles := [candle_at "2024-01-01"; candle_at "2024-02-01";
                      candle_at "2024-03-01"];
     Main.fearGreedIndex := Some 50;
     Main.fearGreedHistory := [];
     Main.signals := [] |}.

(** The candles and the history of the back-fill example: 1704067200 is
    2024-01-01T00:00:00Z and 1704412800 is 2024-01-05T00:00:00Z. *)
Definition example_candles : list Candle.t :=
  [candle_at "2024-01-01"; candle_at "2024-01-02"; candle_at "2024-01-03"].

Definition example_history : list FgData :=
  [ {| timestamp := 1704067200; value := 10 |};
    {| timestamp := 1704412800; value := 90 |} ].

(** A history point whose time value, 10^16 ms, no [Date] can hold. *)
Definition far_history : list FgData :=
  [ {| timestamp := 10000000000000; value := 10 |} ].

(** The settings object that holds the fields of [later] where it has them
    and those of [earlier] elsewhere. *)
Definition settings_over (later earlier : Settings.t) : Settings.t :=
  {| Settings.buyThreshold :=
       match Settings.buyThreshold later with
       | Some v => Some v
       | None => Settings.buyThreshold earlier
       end;
     Settings.sellThreshold :=
       match Settings.sellThreshold later with
       | Some v => Some v
       | None => Settings.sellThreshold earlier
       end |}.

(** A label as a CSS class name: capitals in lower case, a hyphen for each
    space. *)
Definition kebab_char (c : Ascii.ascii) : Ascii.ascii :=
  let n := Ascii.N_of_ascii c in
  if bool_decide (n = 32)%N then "-"%char
  else if bool_decide (65 ≤ n ≤ 90)%N then Ascii.ascii_of_N (n + 32)
  else c.

Fixpoint kebab (s : string) : string :=
  match s with
  | EmptyString => EmptyString
  | String c s' => String (kebab_char c) (kebab s')
  end.

(** Index [i] holds the last candle of [candles] with its time key. *)
Definition last_with_key (candles : list Candle.t) (i : nat) (c : Candle.t)
  : Prop :=
  candles !! i = Some c
  ∧ ∀ j c', (i < j)%nat → candles !! j = Some c' →
            Candle.time c' ≠ Candle.time c.

(** The order of the chart: by time, ascending, in the lexical order. *)
Definition chart_ascending (a b : ChartMarker.t) : Prop :=
  (ChartMarker.time a ≤ ChartMarker.time b)%string.

Definition candle_ascending (a b : Candle.t) : Prop :=
  (Candle.time a ≤ Candle.time b)%string.

(** The interval that runs is the one the application holds, if any. *)
Definition one_timer (st : AutoUpdate.App * AutoUpdate.Host) : Prop :=
  AutoUpdate.running st.2 =
  match AutoUpdate.updateInterval st.1 with
  | Some handle => {[handle]}
  | None => ∅
  end.

(** The strategies that [_initStrategies] registers on the empty list of
    the constructor. *)
Definition _initStrategies : list Strategy :=
  [] ++ [strategy_object FearGreed.new].

(** The candle that [fetchCandlestick] makes of a row whose time is in the
    range of [Date]. *)
Definition candle_of_row (parseFloat : string → QArith_base.Q)
    (row : BitbankFetch.Row) : Candle.t :=
  {| Candle.time := JsDate.isoDate (BitbankFetch.timestamp row);
     Candle.open := parseFloat (BitbankFetch.open row);
     Candle.high := parseFloat (BitbankFetch.high row);
     Candle.low := parseFloat (BitbankFetch.low row);
     Candle.close := parseFloat (BitbankFetch.close row);
     Candle.volume := parseFloat (BitbankFetch.volume row) |}.

(** A response that carries rows: HTTP ok, [success] 1, a first candlestick. *)
Definition response_of_rows (rows : list BitbankFetch.Row)
  : BitbankFetch.Response :=
  {| BitbankFetch.ok := true;
     BitbankFetch.status := 200;
     BitbankFetch.json :=
       {| BitbankFetch.success := 1;
          BitbankFetch.data :=
            Some {| BitbankFetch.code := None;
                    BitbankFetch.candlestick :=
                      Some [ {| BitbankFetch.ohlcv := rows |} ] |} |} |}.

Definition example_rows : list BitbankFetch.Row :=
  [ {| BitbankFetch.open := "3"; BitbankFetch.high := "4";
       BitbankFetch.low := "2"; BitbankFetch.close := "3";
       BitbankFetch.volume := "10"; BitbankFetch.timestamp := 1704412800000 |};
    {| BitbankFetch.open := "1"; BitbankFetch.high := "2";
       BitbankFetch.low := "1"; BitbankFetch.close := "2";
       BitbankFetch.volume := "7"; BitbankFetch.timestamp := 1704067200000 |} ].

(** A state whose history holds a time that no [Date] can hold. *)
Definition far_state : State :=
  {| Main.candles := example_candles;
     Main.fearGreedIndex := Some 50;
     Main.fearGreedHistory := far_history;
     Main.signals := [] |}.

(** * Properties *)

(** ** Threshold evaluation *)

Lemma evaluateIndex_buy this index time :
  index ≤ buyThreshold this →
  _evaluateIndex this index time = Some (marker_at this time index).
Proof.
  intros Hle. unfold _evaluateIndex, marker_at, createSignalMarker.
  rewrite (proj2 (Z.leb_le _ _) Hle).
  by rewrite bool_decide_eq_true_2.
Qed.

Lemma evaluateIndex_sell this index time :
  buyThreshold this < index → sellThreshold this ≤ index →
  _evaluateIndex this index time = Some (marker_at this time index).
Proof.
  intros Hgt Hge. unfold _evaluateIndex, marker_at, createSignalMarker.
  rewrite (proj2 (Z.leb_gt _ _) Hgt).
  rewrite (proj2 (Z.geb_le _ _) Hge).
  rewrite bool_decide_eq_false_2; [done | lia].
Qed.

Lemma evaluateIndex_none this index time :
  buyThreshold this < index → index < sellThreshold this →
  _evaluateIndex this index time = None.
Proof.
  intros Hgt Hlt. unfold _evaluateIndex.
  rewrite (proj2 (Z.leb_gt _ _) Hgt).
  destruct (index >=? sellThreshold this) eqn:E; [| done].
  apply Z.geb_le in E. lia.
Qed.

(** Every evaluation is decided by [crosses]. *)
Lemma evaluateIndex_crosses this index time :
  _evaluateIndex this index time =
  if decide (crosses this index) then Some (marker_at this time index) else None.
Proof.
  unfold crosses. case_decide as Hc.
  - destruct (decide (index ≤ buyThreshold this)).
    + by apply evaluateIndex_buy.
    + apply evaluateIndex_sell; lia.
  - apply evaluateIndex_none; lia.
Qed.

(** C1 (as stated, refuted).  With the thresholds 90/10 the value 50 is at or
    above the sell threshold, yet the evaluation does not return a sell
    marker: the buy branch has already answered. *)
Lemma evaluateIndex_sell_rule_fails :
  ¬ (sellThreshold inverted ≤ 50 →
     type <$> _evaluateIndex inverted 50 "2024-01-01" = Some sell).
Proof.
  intros H. specialize (H ltac:(vm_compute; discriminate)).
  vm_compute in H. discriminate H.
Qed.

(** C1 (amended).  [_evaluateIndex] returns a buy marker whenever the value is
    at or below the buy threshold, a sell marker whenever the value is above
    the buy threshold and at or above the sell threshold, and no marker
    otherwise; with the default thresholds 20/80 the value 20 gives a buy
    marker, 21 none, 80 a sell marker and 79 none. *)
Theorem evaluateIndex_threshold_rule (this : FearGreedStrategy) (index : Z)
    (time : string) :
  (index ≤ buyThreshold this →
     _evaluateIndex this index time =
     Some (createSignalMarker time buy ("FG:" +:+ Number_toString index)
             (_getClassification index) (id this)))
  ∧ (buyThreshold this < index → sellThreshold this ≤ index →
     _evaluateIndex this index time =
     Some (createSignalMarker time sell ("FG:" +:+ Number_toString index)
             (_getClassification index) (id this)))
  ∧ (buyThreshold this < index → index < sellThreshold this →
     _evaluateIndex this index time = None)
  ∧ type <$> _evaluateIndex FearGreed.new 20 time = Some buy
  ∧ _evaluateIndex FearGreed.new 21 time = None
  ∧ type <$> _evaluateIndex FearGreed.new 80 time = Some sell
  ∧ _evaluateIndex FearGreed.new 79 time = None.
Proof.
  repeat split; try reflexivity.
  - intros H. rewrite evaluateIndex_buy by done.
    unfold marker_at, createSignalMarker. by rewrite bool_decide_eq_true_2.
  - intros H1 H2. rewrite evaluateIndex_sell by done.
    unfold marker_at, createSignalMarker.
    rewrite bool_decide_eq_false_2; [done | lia].
  - apply evaluateIndex_none.
Qed.

(** C9.  Whenever the buy predicate holds (in particular when the sell
    predicate holds as well, the thresholds being inverted) [_evaluateIndex]
    returns the buy marker and not a sell marker; one evaluation yields at
    most one marker. *)
Theorem evaluateIndex_buy_precedence (this : FearGreedStrategy) (index : Z)
    (time : string) :
  index ≤ buyThreshold this →
  _evaluateIndex this index time =
    Some (createSignalMarker time buy ("FG:" +:+ Number_toString index)
            (_getClassification index) (id this))
  ∧ type <$> _evaluateIndex this index time ≠ Some sell
  ∧ (length (option_list (_evaluateIndex this index time)) ≤ 1)%nat.
Proof.
  intros H. rewrite evaluateIndex_buy by done.
  unfold marker_at, createSignalMarker. rewrite bool_decide_eq_true_2 by done.
  repeat split; [discriminate | simpl; lia].
Qed.

Lemma evaluateIndex_buy_precedence_witness :
  (50 ≤ buyThreshold inverted ∧ sellThreshold inverted ≤ 50)
  ∧ _evaluateIndex inverted 50 "2024-01-01" =
      Some (createSignalMarker "2024-01-01" buy "FG:50" "Neutral" "feargreed")
  ∧ type <$> _evaluateIndex inverted 50 "2024-01-01" ≠ Some sell
  ∧ (length (option_list (_evaluateIndex inverted 50 "2024-01-01")) ≤ 1)%nat.
Proof.
  split; [vm_compute; split; discriminate |].
  apply (evaluateIndex_buy_precedence inverted 50 "2024-01-01").
  vm_compute; discriminate.
Defined.

(** ** Classification *)

Lemma getClassification_bucket (b : Bucket) (v : Z) :
  in_bucket b v → _getClassification v = bucket_label b.
Proof.
  unfold _getClassification.
  destruct b; simpl; intros H;
    repeat (case_match; try done);
    repeat match goal with
           | E : (_ <=? _) = true |- _ => apply Z.leb_le in E
           | E : (_ <=? _) = false |- _ => apply Z.leb_gt in E
           end; lia.
Qed.

(** C5.  On 0..100 exactly one of the five buckets applies, and the label
    returned is that bucket's: at most 20 Extreme Fear, 21..40 Fear, 41..60
    Neutral, 61..80 Greed, 81..100 Extreme Greed; 40 is Fear and 41 is
    Neutral. *)
Theorem getClassification_cover (v : Z) :
  0 ≤ v ≤ 100 →
  (∃ b, in_bucket b v ∧ (∀ b', in_bucket b' v → b' = b)
        ∧ _getClassification v = bucket_label b)
  ∧ (v ≤ 20 → _getClassification v = "Extreme Fear")
  ∧ (21 ≤ v ≤ 40 → _getClassification v = "Fear")
  ∧ (41 ≤ v ≤ 60 → _getClassification v = "Neutral")
  ∧ (61 ≤ v ≤ 80 → _getClassification v = "Greed")
  ∧ (81 ≤ v ≤ 100 → _getClassification v = "Extreme Greed")
  ∧ _getClassification 40 = "Fear"
  ∧ _getClassification 41 = "Neutral".
Proof.
  intros Hv. split.
  - assert (∃ b, in_bucket b v) as [b Hb].
    { destruct (decide (v ≤ 20)); [by exists ExtremeFear |].
      destruct (decide (v ≤ 40)); [exists Fear; simpl; lia |].
      destruct (decide (v ≤ 60)); [exists Neutral; simpl; lia |].
      destruct (decide (v ≤ 80)); [exists Greed; simpl; lia |].
      exists ExtremeGreed; simpl; lia. }
    exists b. split; [done |]. split; [| by apply getClassification_bucket].
    intros b' Hb'. destruct b, b'; simpl in *; (done || lia).
  - repeat split; try reflexivity.
    + apply (getClassification_bucket ExtremeFear).
    + apply (getClassification_bucket Fear).
    + apply (getClassification_bucket Neutral).
    + apply (getClassification_bucket Greed).
    + apply (getClassification_bucket ExtremeGreed).
Qed.

Lemma getClassification_cover_witness :
  0 ≤ 40 ≤ 100
  ∧ (∃ b, in_bucket b 40 ∧ (∀ b', in_bucket b' 40 → b' = b)
          ∧ _getClassification 40 = bucket_label b)
  ∧ _getClassification 40 = "Fear".
Proof.
  split; [lia |].
  pose proof (getClassification_cover 40 ltac:(lia)) as (Hex & _ & _ & _ & _ & _ & H40 & _).
  split; [exact Hex | exact H40].
Defined.

(** ** Settings update *)



Lemma reachable_id this : reachable this → id this = "feargreed".
Proof.
  induction 1 as [| this e _ IH | this settings _ IH]; [done | done |].
  rewrite <- IH. unfold updateSettings.
  by destruct settings as [[b|] [s|]].
Qed.


(** ** Chart marker projection *)

Lemma or_else_spec (s d : string) :
  or_else s d = if decide (s = "") then d else s.
Proof. by destruct s. Qed.

(** C8.  [toChartMarker] keeps the time; a buy marker becomes belowBar, green,
    arrowUp, a sell marker aboveBar, red, arrowDown; the label is the marker's
    text, or "Buy" (respectively "Sell") when the text is empty. *)
Theorem toChartMarker_projection (signal : SignalMarker) :
  ChartMarker.time (toChartMarker signal) = time signal
  ∧ (type signal = buy →
       ChartMarker.position (toChartMarker signal) = "belowBar"
       ∧ ChartMarker.color (toChartMarker signal) = "#00d26a"
       ∧ ChartMarker.shape (toChartMarker signal) = "arrowUp"
       ∧ ChartMarker.text (toChartMarker signal) =
           if decide (text signal = "") then "Buy" else text signal)
  ∧ (type signal = sell →
       ChartMarker.position (toChartMarker signal) = "aboveBar"
       ∧ ChartMarker.color (toChartMarker signal) = "#ff6b6b"
       ∧ ChartMarker.shape (toChartMarker signal) = "arrowDown"
       ∧ ChartMarker.text (toChartMarker signal) =
           if decide (text signal = "") then "Sell" else text signal).
Proof.
  unfold toChartMarker.
  destruct signal as [tm [|] tx rs sid]; simpl;
    (split; [reflexivity |]); split; intros Ht; try discriminate Ht;
    repeat split; apply or_else_spec.
Qed.

(** ** The loop combinator *)

Section forEach_facts.
Context {A S : Type}.
Implicit Types (arr : list A) (body : S → A → result S) (acc : S).

Lemma forEach_app arr1 arr2 body acc :
  forEach (arr1 ++ arr2) body acc =
  acc' ← forEach arr1 body acc; forEach arr2 body acc'.
Proof.
  revert acc. induction arr1 as [| x arr1 IH]; intros acc; [done |].
  simpl. destruct (body acc x) as [acc' | e]; simpl; [apply IH | done].
Qed.

(** A property of the accumulator that every successful round keeps holds
    of the result. *)
Lemma forEach_invariant (P : S → Prop) arr body acc out :
  (∀ acc0 x acc1, x ∈ arr → P acc0 → body acc0 x = Ok acc1 → P acc1) →
  P acc → forEach arr body acc = Ok out → P out.
Proof.
  revert acc. induction arr as [| x arr IH]; intros acc Hstep Hacc Hrun.
  - simpl in Hrun. by simplify_eq.
  - simpl in Hrun. destruct (body acc x) as [acc' | e] eqn:Hb; [| done].
    simpl in Hrun. eapply (IH acc'); [| | exact Hrun].
    + intros acc0 y acc1 Hy. apply Hstep. by right.
    + eapply Hstep; [by left | exact Hacc | exact Hb].
Qed.
End forEach_facts.

(** ** The candle lookup *)

Lemma candleMap_lookup (candles : list Candle.t) (key : string) :
  is_Some (candleMap candles !! key) ↔ key ∈ Candle.time <$> candles.
Proof.
  unfold candleMap.
  assert (∀ m : gmap string Candle.t,
    is_Some (foldl (λ m candle, <[Candle.time candle := candle]> m) m candles
             !! key)
    ↔ is_Some (m !! key) ∨ key ∈ Candle.time <$> candles) as Hgen.
  { induction candles as [| c candles IH]; intros m; simpl.
    - rewrite elem_of_nil. tauto.
    - rewrite IH, elem_of_cons, lookup_insert_is_Some'.
      split; [intros [[<- | Hm] | Hin] | intros [Hm | [-> | Hin]]]; auto. }
  rewrite Hgen, lookup_empty, is_Some_alt. tauto.
Qed.

Lemma has_candleMap (candles : list Candle.t) (key : string) :
  has (candleMap candles) key = bool_decide (key ∈ Candle.time <$> candles).
Proof. unfold has. apply bool_decide_ext, candleMap_lookup. Qed.

(** ** [calculate]: the three cases *)

Lemma calculate_disabled this candles extraData :
  enabled this = false → FearGreed.calculate this candles extraData = Ok [].
Proof. intros H. unfold FearGreed.calculate. by rewrite H. Qed.

Lemma toISODate_in_range (fgData : FgData) :
  in_date_range fgData →
  JsDate.toISODate (parseInt (timestamp fgData) * 1000) = Ok (dateKey fgData).
Proof.
  unfold in_date_range, JsDate.toISODate, dateKey, parseInt. intros H.
  by rewrite (proj2 (Z.leb_le _ _) H).
Qed.

(** One round of the history loop, for a point in the range of [Date]. *)
Lemma backfill_round this candles (signals : list SignalMarker) fgData :
  in_date_range fgData →
  (dateStr ← JsDate.toISODate (parseInt (timestamp fgData) * 1000);
   if has (candleMap candles) dateStr then
     match _evaluateIndex this (parseInt (value fgData)) dateStr with
     | Some signal => Ok (signals ++ [signal])
     | None => Ok signals
     end
   else Ok signals)
  = Ok (signals ++ backfill_spec this candles [fgData]).
Proof.
  intros Hr. rewrite toISODate_in_range by done. simpl.
  rewrite has_candleMap, evaluateIndex_crosses. unfold backfill_spec, parseInt.
  rewrite filter_cons, filter_nil.
  case_bool_decide as Hin.
  - destruct (decide (crosses this (value fgData))) as [Hc | Hc].
    + by rewrite decide_True.
    + rewrite decide_False by tauto. simpl. by rewrite app_nil_r.
  - rewrite decide_False by tauto. simpl. by rewrite app_nil_r.
Qed.

Lemma backfill_spec_cons this candles fgData history :
  backfill_spec this candles (fgData :: history) =
  backfill_spec this candles [fgData] ++ backfill_spec this candles history.
Proof.
  unfold backfill_spec. rewrite <- fmap_app. f_equal.
  rewrite !filter_cons, filter_nil. by case_decide.
Qed.

Lemma backfill_loop this candles history (signals : list SignalMarker) :
  Forall in_date_range history →
  forEach history (λ signals fgData,
    let timestamp := parseInt (timestamp fgData) in
    dateStr ← JsDate.toISODate (timestamp * 1000);
    let value := parseInt (value fgData) in
    if has (candleMap candles) dateStr then
      match _evaluateIndex this value dateStr with
      | Some signal => Ok (signals ++ [signal])
      | None => Ok signals
      end
    else Ok signals) signals
  = Ok (signals ++ backfill_spec this candles history).
Proof.
  intros Hall. revert signals.
  induction Hall as [| fgData history Hr _ IH]; intros signals.
  - simpl. unfold backfill_spec. rewrite filter_nil. simpl. by rewrite app_nil_r.
  - cbn [forEach]. cbv zeta. rewrite (backfill_round this candles signals fgData Hr).
    simpl. rewrite IH, <- app_assoc. by rewrite <- backfill_spec_cons.
Qed.

Lemma nonempty_length {A : Type} (l : list A) :
  bool_decide (0 < length l)%nat = bool_decide (l ≠ []).
Proof.
  apply bool_decide_ext. destruct l; simpl; split; intros H; try done; lia.
Qed.

Lemma calculate_historical this candles index history :
  enabled this = true → history ≠ [] → candles ≠ [] →
  Forall in_date_range history →
  FearGreed.calculate this candles
    {| FearGreed.fearGreedIndex := index;
       FearGreed.fearGreedHistory := Some history |}
  = Ok (backfill_spec this candles history).
Proof.
  intros He Hh Hc Hall. unfold FearGreed.calculate. rewrite He.
  cbn [negb FearGreed.fearGreedHistory default]. cbv zeta.
  cbn [FearGreed.fearGreedHistory default from_option].
  rewrite !nonempty_length, !bool_decide_eq_true_2 by done.
  cbn [andb].
  exact (backfill_loop this candles history [] Hall).
Qed.

(** C3 (as stated, refuted).  With one candle and a history point at 10^13
    seconds, whose date matches no candle, [calculate] does not skip the
    point and return the (empty) list of matching markers: [toISOString]
    throws a RangeError. *)
Lemma calculate_historical_far_point_throws :
  ¬ (FearGreed.calculate FearGreed.new [candle_at "2024-01-01"]
       {| FearGreed.fearGreedIndex := None;
          FearGreed.fearGreedHistory := Some far_history |}
     = Ok (backfill_spec FearGreed.new [candle_at "2024-01-01"] far_history)).
Proof. vm_compute. discriminate. Qed.

(** C3 (amended).  For an enabled strategy, a non-empty history all of whose
    time values lie in the range of [Date], and non-empty candles,
    [calculate] returns, in the order of the history, the markers of exactly
    those points whose UTC date key is the key of a candle and whose value
    crosses a threshold; the other points are skipped without error.  With
    the candles of 2024-01-01..03 and the history [(2024-01-01, 10);
    (2024-01-05, 90)] the result is the single buy marker at 2024-01-01. *)
Theorem calculate_historical_backfill (this : FearGreedStrategy)
    (candles : list Candle.t) (index : option Z) (history : list FgData) :
  enabled this = true → history ≠ [] → candles ≠ [] →
  Forall in_date_range history →
  FearGreed.calculate this candles
    {| FearGreed.fearGreedIndex := index;
       FearGreed.fearGreedHistory := Some history |}
  = Ok (backfill_spec this candles history)
  ∧ (∀ m, m ∈ backfill_spec this candles history ↔
          ∃ fgData, fgData ∈ history
            ∧ dateKey fgData ∈ Candle.time <$> candles
            ∧ crosses this (value fgData)
            ∧ m = marker_at this (dateKey fgData) (value fgData))
  ∧ FearGreed.calculate FearGreed.new example_candles
      {| FearGreed.fearGreedIndex := index;
         FearGreed.fearGreedHistory := Some example_history |}
    = Ok [createSignalMarker "2024-01-01" buy "FG:10" "Extreme Fear"
            "feargreed"].
Proof.
  intros He Hh Hc Hall. split_and!.
  - by apply calculate_historical.
  - intros m. unfold backfill_spec. rewrite list_elem_of_fmap. split.
    + intros (fgData & -> & Hin).
      apply list_elem_of_filter in Hin as [[Hkey Hcross] Hin].
      by exists fgData.
    + intros (fgData & Hin & Hkey & Hcross & ->).
      exists fgData. split; [done |]. by apply list_elem_of_filter.
  - by destruct index.
Qed.

Lemma calculate_historical_backfill_witness :
  (enabled FearGreed.new = true ∧ example_history ≠ [] ∧ example_candles ≠ []
   ∧ Forall in_date_range example_history)
  ∧ FearGreed.calculate FearGreed.new example_candles
      {| FearGreed.fearGreedIndex := None;
         FearGreed.fearGreedHistory := Some example_history |}
    = Ok (backfill_spec FearGreed.new example_candles example_history).
Proof.
  assert (Forall in_date_range example_history) as Hall.
  { repeat constructor; vm_compute; discriminate. }
  split; [split_and!; [reflexivity | discriminate | discriminate | exact Hall] |].
  apply (calculate_historical_backfill FearGreed.new example_candles None
           example_history);
    [reflexivity | discriminate | discriminate | exact Hall].
Defined.

Lemma last_candle (candles : list Candle.t) :
  candles !! (length candles - 1)%nat = last candles.
Proof. by rewrite last_lookup, Nat.sub_1_r. Qed.

Lemma calculate_live this candles extraData v latest :
  enabled this = true →
  default [] (FearGreed.fearGreedHistory extraData) = [] →
  FearGreed.fearGreedIndex extraData = Some v →
  last candles = Some latest →
  FearGreed.calculate this candles extraData =
  Ok (if decide (crosses this v)
      then [marker_at this (Candle.time latest) v] else []).
Proof.
  intros He Hh Hi Hl. unfold FearGreed.calculate.
  rewrite He, Hh, Hi, last_candle, Hl. cbn [negb length andb].
  rewrite (bool_decide_eq_false_2 (0 < 0)%nat) by lia. cbn [andb].
  rewrite bool_decide_eq_true_2 by (destruct candles; [done | simpl; lia]).
  rewrite evaluateIndex_crosses. by case_decide.
Qed.

Lemma calculate_no_mode this candles extraData :
  ¬ historical_mode candles extraData → ¬ live_mode candles extraData →
  FearGreed.calculate this candles extraData = Ok [].
Proof.
  unfold live_mode, historical_mode, FearGreed.calculate. intros Hh Hl.
  destruct (enabled this); [| done]. cbn [negb]. cbv zeta.
  rewrite !nonempty_length.
  destruct (decide (candles = [])) as [-> | Hc].
  - rewrite (bool_decide_eq_false_2 ([] ≠ [])) by tauto.
    rewrite andb_false_r. by destruct (FearGreed.fearGreedIndex extraData).
  - rewrite (bool_decide_eq_true_2 (candles ≠ [])) by done.
    rewrite bool_decide_eq_false_2 by tauto. cbn [andb].
    destruct (FearGreed.fearGreedIndex extraData) as [v |] eqn:Hi; [| done].
    exfalso. apply Hl. split_and!; [tauto | by exists v | done].
Qed.

(** C4.  For an enabled strategy with an empty history, a value and non-empty
    candles, [calculate] returns at most one marker: the marker of the value
    at the last candle's date key when the value crosses a threshold, none
    otherwise.  When neither the precondition of historical mode nor the one
    of live mode holds, [calculate] returns the empty sequence. *)
Theorem calculate_live_mode (this : FearGreedStrategy)
    (candles : list Candle.t) (extraData : ExtraData) :
  (enabled this = true →
   default [] (FearGreed.fearGreedHistory extraData) = [] →
   ∀ v latest,
     FearGreed.fearGreedIndex extraData = Some v →
     last candles = Some latest →
     ∃ out, FearGreed.calculate this candles extraData = Ok out
       ∧ (length out ≤ 1)%nat
       ∧ (crosses this v → out = [marker_at this (Candle.time latest) v])
       ∧ (¬ crosses this v → out = [])
       ∧ (∀ m, m ∈ out → time m = Candle.time latest))
  ∧ (¬ historical_mode candles extraData → ¬ live_mode candles extraData →
     FearGreed.calculate this candles extraData = Ok []).
Proof.
  split; [| apply calculate_no_mode].
  intros He Hh v latest Hi Hl.
  rewrite (calculate_live this candles extraData v latest He Hh Hi Hl).
  eexists; split; [reflexivity |].
  case_decide as Hc; split_and!; simpl; try done; try lia.
  - by intros m ->%list_elem_of_singleton.
  - by intros m ?%elem_of_nil.
Qed.

Lemma calculate_live_mode_witness :
  (enabled FearGreed.new = true
   ∧ last example_candles = Some (candle_at "2024-01-03"))
  ∧ ∃ out,
      FearGreed.calculate FearGreed.new example_candles
        {| FearGreed.fearGreedIndex := Some 85;
           FearGreed.fearGreedHistory := None |} = Ok out
      ∧ (length out ≤ 1)%nat
      ∧ (crosses FearGreed.new 85 →
         out = [marker_at FearGreed.new "2024-01-03" 85])
      ∧ (¬ crosses FearGreed.new 85 → out = [])
      ∧ (∀ m, m ∈ out → time m = "2024-01-03").
Proof.
  split; [split; reflexivity |].
  exact (proj1 (calculate_live_mode FearGreed.new example_candles
                  {| FearGreed.fearGreedIndex := Some 85;
                     FearGreed.fearGreedHistory := None |})
           eq_refl eq_refl 85 (candle_at "2024-01-03") eq_refl eq_refl).
Defined.

(** ** A disabled strategy *)

Lemma collectSignals_skip_disabled (this : FearGreedStrategy)
    (before after : list Strategy) (state : State) :
  enabled this = false →
  collectSignals (before ++ strategy_object this :: after) state =
  collectSignals (before ++ after) state.
Proof.
  intros He. unfold collectSignals. rewrite !forEach_app.
  destruct (forEach before _ []) as [acc | e]; [| done].
  simpl. unfold Main.isEnabled. simpl. unfold FearGreed.isEnabled.
  by rewrite He.
Qed.

(** C6.  A disabled strategy returns the empty sequence for every candle
    series and sentiment payload, without reading them and without raising,
    and the aggregation over a list that holds it equals the aggregation
    over the list without it. *)
Theorem calculate_disabled_empty (this : FearGreedStrategy)
    (candles : list Candle.t) (extraData : ExtraData) :
  enabled this = false →
  FearGreed.calculate this candles extraData = Ok []
  ∧ (∀ before after state,
       collectSignals (before ++ strategy_object this :: after) state =
       collectSignals (before ++ after) state)
  ∧ (∀ localeCompare before after state,
       _recalculateSignals localeCompare
         (before ++ strategy_object this :: after) state =
       _recalculateSignals localeCompare (before ++ after) state).
Proof.
  intros He. split_and!.
  - by apply calculate_disabled.
  - intros. by apply collectSignals_skip_disabled.
  - intros. unfold _recalculateSignals.
    by rewrite collectSignals_skip_disabled.
Qed.

Lemma calculate_disabled_empty_witness :
  enabled (setEnabled FearGreed.new false) = false
  ∧ FearGreed.calculate (setEnabled FearGreed.new false) example_candles
      {| FearGreed.fearGreedIndex := Some 5;
         FearGreed.fearGreedHistory := Some far_history |} = Ok [].
Proof.
  split; [reflexivity |].
  apply (calculate_disabled_empty (setEnabled FearGreed.new false)
           example_candles
           {| FearGreed.fearGreedIndex := Some 5;
              FearGreed.fearGreedHistory := Some far_history |}).
  reflexivity.
Defined.

(** ** What every marker of [calculate] looks like *)

Lemma evaluateIndex_marker this index time signal :
  _evaluateIndex this index time = Some signal →
  Base.time signal = time ∧ strategyId signal = id this.
Proof.
  rewrite evaluateIndex_crosses. case_decide; [| done].
  intros [= <-]. done.
Qed.

Lemma toISODate_Ok (t : Z) (s : string) :
  JsDate.toISODate t = Ok s → s = JsDate.isoDate t.
Proof.
  unfold JsDate.toISODate. case_match; [| done]. by intros [= <-].
Qed.

(** The markers of historical mode: each sits at the date key of a history
    point, and that key is the key of a candle. *)
Lemma calculate_historical_markers this candles index history out :
  enabled this = true → history ≠ [] → candles ≠ [] →
  FearGreed.calculate this candles
    {| FearGreed.fearGreedIndex := index;
       FearGreed.fearGreedHistory := Some history |} = Ok out →
  Forall (λ m, (∃ fgData, fgData ∈ history ∧ time m = dateKey fgData)
                ∧ time m ∈ Candle.time <$> candles
                ∧ strategyId m = id this) out.
Proof.
  intros He Hh Hc. unfold FearGreed.calculate. rewrite He.
  cbn [negb FearGreed.fearGreedHistory default from_option]. cbv zeta.
  rewrite !nonempty_length, !bool_decide_eq_true_2 by done. cbn [andb].
  apply forEach_invariant; [| by constructor].
  intros acc0 fgData acc1 Hin Hacc0.
  destruct (JsDate.toISODate _) as [dateStr | e] eqn:Hd; [| done].
  apply toISODate_Ok in Hd. simpl. rewrite has_candleMap.
  case_bool_decide as Hkey; [| by intros [= <-]].
  destruct (_evaluateIndex _ _ _) as [signal |] eqn:Hev; intros [= <-]; [| done].
  apply evaluateIndex_marker in Hev as [Ht Hs].
  apply Forall_app. split; [done |]. constructor; [| constructor].
  rewrite Ht. split_and!; [| done | done].
  exists fgData. by split.
Qed.

(** The markers of any run: at the key of a candle, with the strategy's id,
    at the date key of a history point in historical mode and at the last
    candle's key in live mode. *)
Lemma calculate_markers this candles extraData out :
  FearGreed.calculate this candles extraData = Ok out →
  Forall (λ m,
      time m ∈ Candle.time <$> candles ∧ strategyId m = id this
      ∧ (historical_mode candles extraData →
         ∃ fgData, fgData ∈ default [] (FearGreed.fearGreedHistory extraData)
                   ∧ time m = dateKey fgData)
      ∧ (live_mode candles extraData →
         Some (time m) = Candle.time <$> last candles)) out.
Proof.
  intros Hrun.
  destruct (enabled this) eqn:He;
    [| rewrite calculate_disabled in Hrun by done; by simplify_eq].
  destruct (decide (historical_mode candles extraData)) as [Hh | Hh].
  - destruct Hh as [Hh Hc]. destruct extraData as [index [history |]];
      simpl in Hh; [| done].
    eapply Forall_impl;
      [exact (calculate_historical_markers _ _ _ _ _ He Hh Hc Hrun) |].
    intros m (Hp & Hk & Hs). split_and!; [done | done | by intros _ |].
    intros [Hno _]. destruct Hno. by split.
  - destruct (decide (live_mode candles extraData)) as [Hl | Hl];
      [| rewrite calculate_no_mode in Hrun by done; by simplify_eq].
    destruct Hl as (_ & [v Hv] & Hc).
    assert (default [] (FearGreed.fearGreedHistory extraData) = []) as Hnil.
    { unfold historical_mode in Hh.
      destruct (default [] (FearGreed.fearGreedHistory extraData)); [done |].
      destruct Hh. by split. }
    destruct (last candles) as [latest |] eqn:Hlast;
      [| by apply last_None in Hlast].
    rewrite (calculate_live _ _ _ v latest He Hnil Hv Hlast) in Hrun.
    case_decide; simplify_eq; constructor; [| constructor].
    simpl. split_and!; [| done | done | done].
    apply list_elem_of_fmap. exists latest. split; [done |].
    by apply last_Some_elem_of.
Qed.

(** Over candles keyed by dates the strategy emits markers keyed by dates. *)
Lemma calculate_markers_date_keys this candles extraData out :
  Forall (λ candle, isDateKey (Candle.time candle) = true) candles →
  FearGreed.calculate this candles extraData = Ok out →
  Forall (λ m, isDateKey (time m) = true) out.
Proof.
  intros Hcandles Hrun. eapply Forall_impl; [by eapply calculate_markers |].
  intros m (Hk & _). apply list_elem_of_fmap in Hk as (candle & -> & Hin).
  rewrite Forall_forall in Hcandles. by apply Hcandles.
Qed.

(** C10.  Every marker that [calculate] returns has the time key of a candle
    of the input (the date key of a history point in historical mode, the
    last candle's key in live mode), the type buy or sell, and the strategy's
    own id, which is 'feargreed' for every strategy made by the
    constructor. *)
Theorem calculate_markers_wellformed (this : FearGreedStrategy)
    (candles : list Candle.t) (extraData : ExtraData)
    (out : list SignalMarker) :
  FearGreed.calculate this candles extraData = Ok out →
  Forall (λ m,
      time m ∈ Candle.time <$> candles
      ∧ (type_toString (type m) = "buy" ∨ type_toString (type m) = "sell")
      ∧ strategyId m = id this
      ∧ (reachable this → strategyId m = "feargreed")
      ∧ (historical_mode candles extraData →
         ∃ fgData, fgData ∈ default [] (FearGreed.fearGreedHistory extraData)
                   ∧ time m = dateKey fgData)
      ∧ (live_mode candles extraData →
         Some (time m) = Candle.time <$> last candles)) out.
Proof.
  intros Hrun. eapply Forall_impl; [by eapply calculate_markers |].
  intros m (Hk & Hs & Hhist & Hlive). split_and!; try done.
  - destruct (type m); [by left | by right].
  - intros Hr. rewrite Hs. by apply reachable_id.
Qed.

Lemma calculate_markers_wellformed_witness :
  FearGreed.calculate FearGreed.new example_candles
    {| FearGreed.fearGreedIndex := None;
       FearGreed.fearGreedHistory := Some example_history |}
  = Ok [createSignalMarker "2024-01-01" buy "FG:10" "Extreme Fear" "feargreed"]
  ∧ Forall (λ m,
      time m ∈ Candle.time <$> example_candles
      ∧ (type_toString (type m) = "buy" ∨ type_toString (type m) = "sell")
      ∧ strategyId m = id FearGreed.new
      ∧ (reachable FearGreed.new → strategyId m = "feargreed")
      ∧ (historical_mode example_candles
           {| FearGreed.fearGreedIndex := None;
              FearGreed.fearGreedHistory := Some example_history |} →
         ∃ fgData, fgData ∈ example_history ∧ time m = dateKey fgData)
      ∧ (live_mode example_candles
           {| FearGreed.fearGreedIndex := None;
              FearGreed.fearGreedHistory := Some example_history |} →
         Some (time m) = Candle.time <$> last example_candles))
      [createSignalMarker "2024-01-01" buy "FG:10" "Extreme Fear" "feargreed"].
Proof.
  split; [reflexivity |].
  apply (calculate_markers_wellformed FearGreed.new example_candles
           {| FearGreed.fearGreedIndex := None;
              FearGreed.fearGreedHistory := Some example_history |}).
  reflexivity.
Defined.

(** ** The de-duplication key *)

Lemma string_length_app (s1 s2 : string) :
  String.length (s1 +:+ s2) = (String.length s1 + String.length s2)%nat.
Proof. induction s1 as [| c s1 IH]; simpl; [done | by rewrite IH]. Qed.

Lemma string_app_inj_length (s1 s2 t1 t2 : string) :
  String.length s1 = String.length s2 →
  s1 +:+ t1 = s2 +:+ t2 → s1 = s2 ∧ t1 = t2.
Proof.
  revert s2. induction s1 as [| c s1 IH]; intros [| d s2]; simpl; try done.
  intros [= Hlen] [= -> Happ]. destruct (IH s2 Hlen Happ) as [-> ->]. done.
Qed.

Lemma string_app_inj_r (s1 s2 t : string) : s1 +:+ t = s2 +:+ t → s1 = s2.
Proof.
  intros H. apply (string_app_inj_length s1 s2 t t); [| exact H].
  apply (f_equal String.length) in H. rewrite !string_length_app in H. lia.
Qed.

(** Equal keys come from equal (time, type) pairs: the part after the last
    hyphen is the type. *)
Lemma key_inj (m1 m2 : SignalMarker) : key m1 = key m2 → pair_of m1 = pair_of m2.
Proof.
  unfold key, pair_of. destruct m1 as [t1 ty1 ? ? ?], m2 as [t2 ty2 ? ? ?].
  cbn [Base.time Base.type]. intros H.
  assert (∀ t t' : string, t +:+ "-buy" ≠ t' +:+ "-sell") as Hdiff.
  { intros t t' Heq. pose proof (f_equal String.length Heq) as Hlen.
    rewrite !string_length_app in Hlen. simpl in Hlen.
    pose proof (String.append_correct2 t "-buy" 3) as H1.
    pose proof (String.append_correct2 t' "-sell" 4) as H2.
    rewrite Heq in H1. replace (3 + String.length t)%nat
      with (4 + String.length t')%nat in H1 by lia.
    rewrite <- H2 in H1. simpl in H1. discriminate H1. }
  destruct ty1, ty2; cbn in H.
  - by rewrite (string_app_inj_r _ _ _ H).
  - by apply Hdiff in H.
  - symmetry in H. by apply Hdiff in H.
  - by rewrite (string_app_inj_r _ _ _ H).
Qed.

Lemma key_pair (m1 m2 : SignalMarker) : key m1 = key m2 ↔ pair_of m1 = pair_of m2.
Proof.
  split; [apply key_inj |]. unfold key, pair_of. by intros [= -> ->].
Qed.

(** ** The insertion-ordered map *)

Lemma JsMap_set_fresh {V : Type} (m : JsMap.t V) (k : string) (v : V) :
  k ∉ m.*1 → JsMap.set m k v = m ++ [(k, v)].
Proof.
  induction m as [| [k' w] m IH]; simpl; [done |].
  rewrite not_elem_of_cons. intros [Hne Hnin].
  rewrite decide_False by done. by rewrite IH.
Qed.

(** ** The sort *)

Section sort_facts.
Context {A : Type} (comparefn : A → A → Z) (R : relation A) (P : A → Prop).

Lemma insert_Permutation (x : A) (l : list A) :
  JsArray.insert comparefn x l ≡ₚ x :: l.
Proof.
  induction l as [| y l IH]; simpl; [done |].
  case_match; [done |]. by rewrite IH, Permutation_swap.
Qed.

Lemma sort_Permutation (l : list A) : JsArray.sort comparefn l ≡ₚ l.
Proof.
  unfold JsArray.sort. induction l as [| x l IH]; simpl; [done |].
  by rewrite insert_Permutation, IH.
Qed.

(** On the elements that satisfy [P] the comparator decides [R]. *)
Hypothesis comparefn_le : ∀ x y, P x → P y → comparefn x y ≤ 0 → R x y.
Hypothesis comparefn_gt : ∀ x y, P x → P y → 0 < comparefn x y → R y x.
Hypothesis R_trans : Transitive R.

Lemma insert_StronglySorted (x : A) (l : list A) :
  P x → Forall P l → StronglySorted R l →
  StronglySorted R (JsArray.insert comparefn x l).
Proof.
  intros Hx. induction l as [| y l IH]; intros HP Hs; simpl.
  - by repeat constructor.
  - apply Forall_cons in HP as [Hy HP].
    apply StronglySorted_inv in Hs as [Hs Hyl].
    destruct (comparefn x y <=? 0) eqn:Hc.
    + apply Z.leb_le in Hc. pose proof (comparefn_le x y Hx Hy Hc) as Hxy.
      constructor; [by constructor |]. constructor; [done |].
      eapply Forall_impl; [exact Hyl |]. intros z Hyz. by transitivity y.
    + apply Z.leb_gt in Hc. constructor; [by apply IH |].
      rewrite insert_Permutation. constructor; [| done].
      by apply comparefn_gt.
Qed.

Lemma sort_StronglySorted (l : list A) :
  Forall P l → StronglySorted R (JsArray.sort comparefn l).
Proof.
  unfold JsArray.sort. induction 1 as [| x l Hx HP IH]; simpl.
  - constructor.
  - apply insert_StronglySorted; [done | | done].
    fold (JsArray.sort comparefn l). by rewrite sort_Permutation.
Qed.
End sort_facts.

(** ** The de-duplication loop *)

Lemma seen_after_snoc (signals : list SignalMarker) (x : SignalMarker) :
  seen_after (signals ++ [x]) =
  if bool_decide (key x ∈ (seen_after signals).*1) then seen_after signals
  else seen_after signals ++ [(key x, x)].
Proof.
  unfold seen_after at 1. rewrite foldl_snoc. fold (seen_after signals).
  cbv zeta. unfold JsMap.has. case_bool_decide as Hin; simpl; [done |].
  by apply JsMap_set_fresh.
Qed.

Lemma first_with_pair_snoc (signals : list SignalMarker) (x : SignalMarker)
    (i : nat) (m : SignalMarker) :
  first_with_pair (signals ++ [x]) i m ↔
  first_with_pair signals i m
  ∨ (i = length signals ∧ m = x
     ∧ ∀ m', m' ∈ signals → pair_of m' ≠ pair_of x).
Proof.
  unfold first_with_pair. rewrite lookup_snoc_Some. split.
  - intros [[[Hlt Hi] | [-> <-]] Hfirst].
    + left. split; [done |]. intros j m' Hj Hm'.
      apply (Hfirst j); [done |]. by apply lookup_app_l_Some.
    + right. split_and!; [done | done |]. intros m' Hm'.
      apply list_elem_of_lookup in Hm' as [j Hj].
      apply (Hfirst j); [by eapply lookup_lt_Some |].
      by apply lookup_app_l_Some.
  - intros [[Hi Hfirst] | (-> & -> & Hfresh)].
    + pose proof (lookup_lt_Some _ _ _ Hi) as Hlt.
      split; [left; by split |]. intros j m' Hj Hm'.
      apply (Hfirst j); [done |]. rewrite lookup_app_l in Hm' by lia. done.
    + split; [right; by split |]. intros j m' Hj Hm'.
      rewrite lookup_app_l in Hm' by done.
      apply Hfresh. by eapply list_elem_of_lookup_2.
Qed.

(** What the loop has built: every entry sits under its own key, the keys
    are those of the markers seen, no key occurs twice, and the values are
    the first markers of their (time, type) pair. *)
Lemma seen_after_spec (signals : list SignalMarker) :
  (seen_after signals).*1 = key <$> JsMap.values (seen_after signals)
  ∧ (∀ k, k ∈ (seen_after signals).*1 ↔ ∃ m, m ∈ signals ∧ key m = k)
  ∧ NoDup (seen_after signals).*1
  ∧ (∀ m, m ∈ JsMap.values (seen_after signals) ↔
          ∃ i, first_with_pair signals i m).
Proof.
  unfold JsMap.values.
  induction signals as [| x signals (Hkeys & Hdom & Hnodup & Hfirst)]
    using rev_ind.
  - split_and!; [done | | constructor |].
    + intros k. split; [by intros ?%elem_of_nil |].
      by intros (m & ?%elem_of_nil & _).
    + intros m. split; [by intros ?%elem_of_nil |].
      by intros (i & Hi & _).
  - rewrite seen_after_snoc. case_bool_decide as Hin.
    + apply Hdom in Hin as (m0 & Hm0 & Hkey0). apply key_pair in Hkey0.
      split_and!; [done | | done |].
      * intros k. rewrite Hdom. setoid_rewrite elem_of_app.
        setoid_rewrite list_elem_of_singleton. split.
        -- intros (m & Hm & Hk). exists m. auto.
        -- intros (m & [Hm | ->] & Hk); [by exists m |].
           exists m0. split; [done |]. rewrite <- Hk. by apply key_pair.
      * intros m. rewrite Hfirst. setoid_rewrite first_with_pair_snoc. split.
        -- intros [i Hi]. exists i. by left.
        -- intros [i [Hi | (_ & _ & Hfresh)]]; [by exists i |].
           by destruct (Hfresh m0 Hm0).
    + assert (∀ m', m' ∈ signals → pair_of m' ≠ pair_of x) as Hfresh.
      { intros m' Hm' Heq. apply Hin, Hdom. exists m'.
        split; [done |]. by apply key_pair. }
      rewrite !fmap_app. simpl. split_and!.
      * by rewrite Hkeys.
      * intros k. rewrite elem_of_app, list_elem_of_singleton, Hdom.
        setoid_rewrite elem_of_app. setoid_rewrite list_elem_of_singleton.
        split.
        -- intros [(m & Hm & Hk) | ->]; [exists m; auto | exists x; auto].
        -- intros (m & [Hm | ->] & Hk); [left; by exists m | by right].
      * apply NoDup_app. split_and!; [done | | apply NoDup_singleton].
        intros k Hk ->%list_elem_of_singleton. done.
      * intros m. rewrite elem_of_app, list_elem_of_singleton, Hfirst.
        setoid_rewrite first_with_pair_snoc. split.
        -- intros [[i Hi] | ->]; [exists i; by left |].
           exists (length signals). by right.
        -- intros [i [Hi | (_ & -> & _)]]; [left; by exists i | by right].
Qed.

Lemma first_with_pair_elem_of signals i m :
  first_with_pair signals i m → m ∈ signals.
Proof. intros [Hi _]. by eapply list_elem_of_lookup_2. Qed.

(** ** [_deduplicateSignals] *)

Lemma deduplicateSignals_Permutation localeCompare signals :
  _deduplicateSignals localeCompare signals
  ≡ₚ JsMap.values (seen_after signals).
Proof. unfold _deduplicateSignals. apply sort_Permutation. Qed.

Lemma deduplicateSignals_unique localeCompare signals :
  NoDup (pair_of <$> _deduplicateSignals localeCompare signals)
  ∧ (∀ m, m ∈ _deduplicateSignals localeCompare signals ↔
          ∃ i, first_with_pair signals i m).
Proof.
  destruct (seen_after_spec signals) as (Hkeys & _ & Hnodup & Hfirst).
  split.
  - rewrite deduplicateSignals_Permutation.
    apply (NoDup_fmap_1 pair_key). rewrite <- list_fmap_compose.
    rewrite Hkeys in Hnodup. exact Hnodup.
  - intros m. by rewrite deduplicateSignals_Permutation.
Qed.

Lemma time_descending_trans : Transitive time_descending.
Proof.
  intros a b c Hab Hbc. unfold time_descending in *. by transitivity (time b).
Qed.

Lemma deduplicateSignals_sorted localeCompare signals :
  lexical_on_date_keys localeCompare →
  Forall (λ m, isDateKey (time m) = true) signals →
  StronglySorted time_descending (_deduplicateSignals localeCompare signals).
Proof.
  intros Hlex Hkeys. unfold _deduplicateSignals. fold (seen_after signals).
  apply (sort_StronglySorted _ _ (λ m, isDateKey (time m) = true)).
  - intros x y Hx Hy Hc. unfold time_descending, String.le, String.leb.
    rewrite <- (Hlex _ _ Hy Hx).
    apply Z.compare_le_iff in Hc. by destruct (_ ?= 0).
  - intros x y Hx Hy Hc. unfold time_descending, String.le, String.leb.
    rewrite String.compare_antisym, <- (Hlex _ _ Hy Hx).
    apply Z.compare_gt_iff in Hc. by rewrite Hc.
  - apply time_descending_trans.
  - apply Forall_forall. intros m Hm.
    apply (seen_after_spec signals) in Hm as [i Hi].
    rewrite Forall_forall in Hkeys. apply Hkeys.
    by eapply first_with_pair_elem_of.
Qed.

(** ** The aggregation *)

Lemma collectSignals_concat (strategies : list Strategy) (state : State)
    (outs : list (list SignalMarker)) :
  Forall2 (λ strategy out,
      Main.calculate strategy (Main.candles state) (extraData_of state) = Ok out)
    (filter (λ strategy, Main.isEnabled strategy) strategies) outs →
  collectSignals strategies state = Ok (concat outs).
Proof.
  intros Hall. unfold collectSignals.
  rewrite <- (app_nil_l (concat outs)) at 1.
  generalize (@nil SignalMarker). revert outs Hall.
  induction strategies as [| strategy strategies IH]; intros outs Hall acc.
  - rewrite filter_nil in Hall. apply Forall2_nil_inv_l in Hall as ->.
    simpl. by rewrite app_nil_r.
  - rewrite filter_cons in Hall. cbn [forEach].
    destruct (Main.isEnabled strategy) eqn:He.
    + rewrite decide_True in Hall by exact I.
      apply Forall2_cons_inv_l in Hall as (out & outs' & Hout & Hall & ->).
      fold (extraData_of state). rewrite Hout. simpl.
      rewrite (IH outs' Hall). by rewrite app_assoc.
    + rewrite decide_False in Hall by (intros []).
      simpl. by apply IH.
Qed.

(** C2.  When the candles are not empty and every enabled strategy returns,
    the aggregation stores a sequence that holds at most one marker for each
    (time, type) pair, namely the first marker with that pair in the
    concatenation of the strategies' outputs (strategies in registration
    order, each output in its own order), and, the times being date keys on
    which [localeCompare] is the lexical order, the sequence descends by
    time in the lexical order of strings. *)
Theorem recalculateSignals_dedup_sorted (localeCompare : string → string → Z)
    (strategies : list Strategy) (state : State)
    (outs : list (list SignalMarker)) :
  Main.candles state ≠ [] →
  Forall2 (λ strategy out,
      Main.calculate strategy (Main.candles state) (extraData_of state) = Ok out)
    (filter (λ strategy, Main.isEnabled strategy) strategies) outs →
  ∃ state',
    _recalculateSignals localeCompare strategies state = Ok state'
    ∧ NoDup (pair_of <$> Main.signals state')
    ∧ (∀ m, m ∈ Main.signals state' ↔ ∃ i, first_with_pair (concat outs) i m)
    ∧ (lexical_on_date_keys localeCompare →
       Forall (λ m, isDateKey (time m) = true) (concat outs) →
       StronglySorted time_descending (Main.signals state')).
Proof.
  intros Hc Hall. unfold _recalculateSignals.
  rewrite bool_decide_eq_false_2 by (by destruct (Main.candles state)).
  rewrite (collectSignals_concat strategies state outs Hall). simpl.
  eexists. split; [reflexivity |]. simpl.
  destruct (deduplicateSignals_unique localeCompare (concat outs))
    as [Hnodup Hfirst].
  split_and!; [done | done |]. apply deduplicateSignals_sorted.
Qed.

Lemma recalculateSignals_dedup_sorted_witness :
  ∃ state',
    _recalculateSignals codeUnitCompare example_strategies example_state
      = Ok state'
    ∧ Main.signals state' =
        [ createSignalMarker "2024-03-01" sell "A2" "" "first";
          createSignalMarker "2024-02-01" buy "A3" "" "first";
          createSignalMarker "2024-02-01" sell "B1" "" "second";
          createSignalMarker "2024-01-01" buy "A1" "" "first" ]
    ∧ NoDup (pair_of <$> Main.signals state')
    ∧ StronglySorted time_descending (Main.signals state').
Proof.
  destruct (recalculateSignals_dedup_sorted codeUnitCompare example_strategies
              example_state
              [ [ createSignalMarker "2024-01-01" buy "A1" "" "first";
                  createSignalMarker "2024-03-01" sell "A2" "" "first";
                  createSignalMarker "2024-02-01" buy "A3" "" "first" ];
                [ createSignalMarker "2024-02-01" sell "B1" "" "second";
                  createSignalMarker "2024-01-01" buy "B2" "" "second" ] ])
    as (state' & Hrun & Hnodup & _ & Hsorted).
  - discriminate.
  - repeat constructor.
  - exists state'. split; [exact Hrun |].
    split; [vm_compute in Hrun; by injection Hrun as <- |].
    split; [exact Hnodup |]. apply Hsorted.
    + intros a b _ _. unfold codeUnitCompare. by destruct (a ?= b)%string.
    + repeat constructor.
Defined.

(** ** The calendar arithmetic agrees with its definition in ECMA-262 *)

(** [YearFromDay] is the year that contains the day. *)
Lemma YearFromDay_spec (day : Z) :
  JsDate.DayFromYear (JsDate.YearFromDay day) ≤ day
  < JsDate.DayFromYear (JsDate.YearFromDay day + 1).
Proof.
  unfold JsDate.YearFromDay. cbv zeta.
  destruct (Z.ltb_spec day
    (JsDate.DayFromYear (1970 + (400 * day) `div` 146097))) as [H1 | H1].
  - revert H1. unfold JsDate.DayFromYear. intros H1.
    Z.div_mod_to_equations. lia.
  - destruct (Z.leb_spec
      (JsDate.DayFromYear (1970 + (400 * day) `div` 146097 + 1)) day)
      as [H2 | H2].
    + revert H1 H2. unfold JsDate.DayFromYear. intros H1 H2.
      Z.div_mod_to_equations. lia.
    + lia.
Qed.

(** The length of a year is the distance between two first days. *)
Lemma DaysInYear_spec (y : Z) :
  JsDate.DaysInYear y = JsDate.DayFromYear (y + 1) - JsDate.DayFromYear y.
Proof.
  unfold JsDate.DaysInYear, JsDate.DayFromYear.
  repeat case_match;
    repeat match goal with
           | H : negb _ = true |- _ => apply negb_true_iff in H
           | H : negb _ = false |- _ => apply negb_false_iff in H
           | H : (_ =? _) = true |- _ => apply Z.eqb_eq in H
           | H : (_ =? _) = false |- _ => apply Z.eqb_neq in H
           end;
    Z.div_mod_to_equations; lia.
Qed.

(** Month and day of the month are a calendar date. *)
Lemma MonthFromDay_DateFromDay_range (dayWithinYear leap : Z) :
  0 ≤ dayWithinYear < 365 + leap → 0 ≤ leap ≤ 1 →
  0 ≤ JsDate.MonthFromDay dayWithinYear leap ≤ 11
  ∧ 1 ≤ JsDate.DateFromDay dayWithinYear leap ≤ 31.
Proof.
  intros Hd Hl. unfold JsDate.DateFromDay, JsDate.MonthFromDay.
  repeat (case_match; try lia);
    repeat match goal with
           | H : (_ <? _) = true |- _ => apply Z.ltb_lt in H
           | H : (_ <? _) = false |- _ => apply Z.ltb_ge in H
           end; lia.
Qed.


(** ** The date keys of the years 0000 to 9999 are fixed-width *)

Lemma YearFromDay_range (day : Z) :
  -719528 ≤ day ≤ 2932896 → 0 ≤ JsDate.YearFromDay day ≤ 9999.
Proof.
  intros Hday. pose proof (YearFromDay_spec day) as Hy.
  revert Hy. generalize (JsDate.YearFromDay day) as y. intros y.
  unfold JsDate.DayFromYear. intros Hy. Z.div_mod_to_equations. lia.
Qed.

Lemma forallb_seqZ (f : Z → bool) (m len x : Z) :
  forallb f (seqZ m len) = true → m ≤ x < m + len → f x = true.
Proof.
  intros Hall Hx. rewrite forallb_forall in Hall. apply Hall.
  apply list_elem_of_In, elem_of_seqZ. lia.
Qed.

Lemma yearString_digits (y : Z) :
  0 ≤ y ≤ 9999 → digits 4 (JsDate.yearString y) = true.
Proof.
  intros Hy.
  apply (forallb_seqZ (λ y, digits 4 (JsDate.yearString y)) 0 10000);
    [vm_compute; reflexivity | lia].
Qed.

Lemma padStart_digits (n : Z) :
  1 ≤ n ≤ 31 → digits 2 (JsDate.padStart 2 n) = true.
Proof.
  intros Hn.
  apply (forallb_seqZ (λ n, digits 2 (JsDate.padStart 2 n)) 1 31);
    [vm_compute; reflexivity | lia].
Qed.

Lemma isDateKey_compose (ys ms ds : string) :
  digits 4 ys = true → digits 2 ms = true → digits 2 ds = true →
  isDateKey (ys +:+ "-" +:+ ms +:+ "-" +:+ ds) = true.
Proof.
  unfold digits. rewrite !andb_true_iff, !bool_decide_eq_true.
  intros [Hly Hy] [Hlm Hm] [Hld Hd].
  destruct ys as [| y1 [| y2 [| y3 [| y4 [| ? ?]]]]]; try discriminate Hly.
  destruct ms as [| m1 [| m2 [| ? ?]]]; try discriminate Hlm.
  destruct ds as [| d1 [| d2 [| ? ?]]]; try discriminate Hld.
  simpl in *.
  repeat match goal with
         | H : _ && _ = true |- _ => apply andb_true_iff in H as [? ?]
         end.
  repeat (apply andb_true_iff; split); done.
Qed.

(** Every date key that [toISOString] prints for a time in the years 0000 to
    9999 has the fixed-width form. *)
Lemma isoDate_isDateKey (t : Z) :
  four_digit_year t → isDateKey (JsDate.isoDate t) = true.
Proof.
  unfold four_digit_year. intros Ht. unfold JsDate.isoDate. cbv zeta.
  assert (-719528 ≤ JsDate.Day t ≤ 2932896) as Hday.
  { unfold JsDate.Day, JsDate.msPerDay. Z.div_mod_to_equations. lia. }
  pose proof (YearFromDay_range _ Hday) as Hy.
  pose proof (YearFromDay_spec (JsDate.Day t)) as Hin.
  pose proof (DaysInYear_spec (JsDate.YearFromDay (JsDate.Day t))) as Hlen.
  set (y := JsDate.YearFromDay (JsDate.Day t)) in *.
  set (d := JsDate.Day t - JsDate.DayFromYear y).
  assert (0 ≤ d < 365 + JsDate.InLeapYear y ∧ 0 ≤ JsDate.InLeapYear y ≤ 1)
    as [Hd Hleap].
  { unfold JsDate.InLeapYear. subst d.
    assert (JsDate.DaysInYear y = 365 ∨ JsDate.DaysInYear y = 366) as [He | He]
      by (unfold JsDate.DaysInYear; repeat case_match; auto).
    - rewrite He. simpl. lia.
    - rewrite He. simpl. lia. }
  destruct (MonthFromDay_DateFromDay_range d _ Hd Hleap) as [Hm Hdate].
  apply isDateKey_compose.
  - by apply yearString_digits.
  - apply padStart_digits. lia.
  - by apply padStart_digits.
Qed.

(** So the candles that [fetchCandlestick] keys by such dates make the
    strategy emit markers keyed by dates. *)
Lemma calculate_markers_four_digit_years this (times : list Z) extraData out :
  Forall four_digit_year times →
  FearGreed.calculate this (candle_at ∘ JsDate.isoDate <$> times) extraData
    = Ok out →
  Forall (λ m, isDateKey (time m) = true) out.
Proof.
  intros Htimes. apply calculate_markers_date_keys.
  apply Forall_fmap. eapply Forall_impl; [exact Htimes |].
  intros t Ht. simpl. by apply isoDate_isDateKey.
Qed.

(** ** Examples of the aggregation *)

(** Sort order: three markers that come out of the de-duplication as
    January, March, February are stored as March, February, January. *)
Example deduplicateSignals_sort_order :
  time <$> _deduplicateSignals codeUnitCompare
    [ createSignalMarker "2024-01-01" buy "a" "" "s";
      createSignalMarker "2024-03-01" buy "b" "" "s";
      createSignalMarker "2024-02-01" buy "c" "" "s" ]
  = ["2024-03-01"; "2024-02-01"; "2024-01-01"].
Proof. reflexivity. Qed.

(** An object of the base class makes the aggregation throw: its
    [calculate] is not implemented. *)
Example recalculateSignals_base_class_throws :
  _recalculateSignals codeUnitCompare
    [ strategy_object
        {| base_id := "base"; base_name := "Base"; base_enabled := true |} ]
    example_state
  = Throw (Error "calculate() must be implemented by subclass").
Proof. reflexivity. Qed.

(** With no candles the aggregation leaves the state as it was. *)
Example recalculateSignals_no_candles localeCompare strategies state :
  Main.candles state = [] →
  _recalculateSignals localeCompare strategies state = Ok state.
Proof. intros H. unfold _recalculateSignals. by rewrite H. Qed.

(** * Further properties of the code *)

(** ** Settings: read back, repeat, compose *)


Lemma strategy_eq (a b : FearGreedStrategy) :
  id a = id b → name a = name b → enabled a = enabled b →
  buyThreshold a = buyThreshold b → sellThreshold a = sellThreshold b → a = b.
Proof. destruct a, b; simpl; by intros -> -> -> -> ->. Qed.



(** X2.  Two updates in a row are one update with the later object laid over
    the earlier one (a later field wins, an absent later field lets the
    earlier one through); in particular an update applied twice is the
    update applied once. *)
Theorem updateSettings_compose (this : FearGreedStrategy)
    (earlier later : Settings.t) :
  updateSettings (updateSettings this earlier) later
  = updateSettings this (settings_over later earlier)
  ∧ updateSettings (updateSettings this later) later
    = updateSettings this later.
Proof.
  split.
  - by destruct earlier as [[b1|] [s1|]], later as [[b2|] [s2|]].
  - destruct later as [[b|] [s'|]]; apply strategy_eq; simpl; try done; lia.
Qed.

(** ** The three bucket tables *)

(** X3.  The classification helper exported by the strategy module, the
    badge helpers of the API module and the strategy's own
    [_getClassification] are the same table for every value: equal labels,
    equal CSS classes, and the CSS class is the label in lower case with a
    hyphen for the space. *)
Theorem classification_tables_agree (v : Z) :
  Classification.classification (getFearGreedClassification v)
    = _getClassification v
  ∧ Api.getFearGreedText v = _getClassification v
  ∧ Classification.cssClass (getFearGreedClassification v)
    = Api.getFearGreedCssClass v
  ∧ Api.getFearGreedCssClass v = kebab (Api.getFearGreedText v).
Proof.
  unfold getFearGreedClassification, Api.getFearGreedText,
    Api.getFearGreedCssClass, _getClassification.
  by repeat case_match.
Qed.

(** ** Markers of the sentiment strategy on the chart *)

Lemma FG_text_nonempty (s : string) : or_else ("FG:" +:+ s) "Buy" = "FG:" +:+ s
  ∧ or_else ("FG:" +:+ s) "Sell" = "FG:" +:+ s.
Proof. done. Qed.

(** X4.  A marker that [_evaluateIndex] returns is drawn with its own label
    "FG:<value>", never with the default "Buy" or "Sell", at its own time,
    and below the bar exactly when the value is at or below the buy
    threshold. *)
Theorem evaluateIndex_toChartMarker (this : FearGreedStrategy) (index : Z)
    (time : string) (signal : SignalMarker) :
  _evaluateIndex this index time = Some signal →
  ChartMarker.text (toChartMarker signal) = "FG:" +:+ Number_toString index
  ∧ ChartMarker.text (toChartMarker signal) ≠ "Buy"
  ∧ ChartMarker.text (toChartMarker signal) ≠ "Sell"
  ∧ ChartMarker.time (toChartMarker signal) = time
  ∧ (ChartMarker.position (toChartMarker signal) = "belowBar"
     ↔ index ≤ buyThreshold this)
  ∧ (ChartMarker.position (toChartMarker signal) = "aboveBar"
     ↔ buyThreshold this < index).
Proof.
  rewrite evaluateIndex_crosses. case_decide as Hc; [| done].
  intros [= <-]. unfold toChartMarker, marker_at. simpl.
  case_bool_decide as Hb; simpl; split_and!; try done; split; (done || lia).
Qed.

Lemma evaluateIndex_toChartMarker_witness :
  _evaluateIndex FearGreed.new 85 "2024-01-03"
    = Some (marker_at FearGreed.new "2024-01-03" 85)
  ∧ ChartMarker.text (toChartMarker (marker_at FearGreed.new "2024-01-03" 85))
    = "FG:85".
Proof.
  split; [reflexivity |].
  exact (proj1 (evaluateIndex_toChartMarker FearGreed.new 85 "2024-01-03"
                  (marker_at FearGreed.new "2024-01-03" 85) eq_refl)).
Defined.

(** X5.  The reason written on a marker follows the fixed bucket table, not
    the thresholds: a buy marker reads "Extreme Fear" whenever the buy
    threshold is at most 20, a sell marker reads "Extreme Greed" whenever
    the sell threshold is above 80, and a sell marker at a value of at most
    80 (possible from a sell threshold of 80 down) reads a milder bucket. *)
Theorem evaluateIndex_reason (this : FearGreedStrategy) (index : Z)
    (time : string) (signal : SignalMarker) :
  _evaluateIndex this index time = Some signal →
  reason signal = _getClassification index
  ∧ (type signal = buy → buyThreshold this ≤ 20 →
     reason signal = "Extreme Fear")
  ∧ (type signal = sell → 80 < sellThreshold this →
     reason signal = "Extreme Greed")
  ∧ (type signal = sell → index ≤ 80 → reason signal ≠ "Extreme Greed").
Proof.
  rewrite evaluateIndex_crosses. case_decide as Hc; [| done].
  intros [= <-]. unfold marker_at. simpl.
  split_and!; [done | | |].
  - case_bool_decide; [| done]. intros _ Hb.
    apply (getClassification_bucket ExtremeFear). simpl. lia.
  - case_bool_decide; [done |]. intros _ Hs. destruct Hc; [lia |].
    unfold _getClassification. repeat case_match; try done;
      repeat match goal with
             | E : (_ <=? _) = true |- _ => apply Z.leb_le in E
             end; lia.
  - intros _ Hi. unfold _getClassification. repeat case_match; try done.
    match goal with E : (index <=? 80) = false |- _ => apply Z.leb_gt in E end.
    lia.
Qed.

Lemma evaluateIndex_reason_witness :
  _evaluateIndex FearGreed.new 80 "2024-01-03"
    = Some (marker_at FearGreed.new "2024-01-03" 80)
  ∧ reason (marker_at FearGreed.new "2024-01-03" 80) = "Greed".
Proof.
  split; [reflexivity |].
  exact (proj1 (evaluateIndex_reason FearGreed.new 80 "2024-01-03"
                  (marker_at FearGreed.new "2024-01-03" 80) eq_refl)).
Defined.

(** ** More on the sort *)

Section sort_more.
Context {A K : Type} `{EqDecision K} (comparefn : A → A → Z) (R : relation A)
  (P : A → Prop) (f : A → K).

(** Elements with the same sort key never change places. *)
Hypothesis comparefn_tie : ∀ x y, P x → P y → f x = f y → comparefn x y ≤ 0.

Lemma insert_filter_key (k : K) (x : A) (l : list A) :
  P x → Forall P l →
  filter (λ z, f z = k) (JsArray.insert comparefn x l)
  = filter (λ z, f z = k) (x :: l).
Proof.
  intros Hx. induction l as [| y l IH]; intros HP; simpl; [done |].
  apply Forall_cons in HP as [Hy HP].
  destruct (comparefn x y <=? 0) eqn:Hc; [done |].
  apply Z.leb_gt in Hc. rewrite filter_cons, (IH HP), !filter_cons.
  destruct (decide (f y = k)) as [Hyk | Hyk];
    destruct (decide (f x = k)) as [Hxk | Hxk]; try done.
  pose proof (comparefn_tie x y Hx Hy ltac:(congruence)). lia.
Qed.

Lemma sort_filter_key (k : K) (l : list A) :
  Forall P l →
  filter (λ z, f z = k) (JsArray.sort comparefn l) = filter (λ z, f z = k) l.
Proof.
  unfold JsArray.sort. induction 1 as [| x l Hx HP IH]; simpl; [done |].
  fold (JsArray.sort comparefn l) in *.
  rewrite insert_filter_key; [| done | by rewrite sort_Permutation].
  by rewrite !filter_cons, IH.
Qed.

(** A sequence that is already in order is left as it is. *)
Hypothesis R_comparefn : ∀ x y, P x → P y → R x y → comparefn x y ≤ 0.

Lemma sort_sorted_id (l : list A) :
  Forall P l → StronglySorted R l → JsArray.sort comparefn l = l.
Proof.
  unfold JsArray.sort. intros HP Hs. induction Hs as [| x l Hs IH Hx]; [done |].
  apply Forall_cons in HP as [Hpx HP]. simpl. rewrite (IH HP).
  destruct l as [| y l]; [done |]. simpl.
  apply Forall_cons in Hx as [Hxy _]. apply Forall_cons in HP as [Hpy _].
  by rewrite (proj2 (Z.leb_le _ _) (R_comparefn x y Hpx Hpy Hxy)).
Qed.
End sort_more.

Lemma string_compare_refl (s : string) : (s ?= s)%string = Eq.
Proof.
  pose proof (String.compare_antisym s s) as H.
  by destruct (s ?= s)%string.
Qed.

(** What the agreement on date keys gives for a comparator. *)
Lemma lexical_le localeCompare a b :
  lexical_on_date_keys localeCompare →
  isDateKey a = true → isDateKey b = true →
  (localeCompare a b ≤ 0 ↔ (a ≤ b)%string)
  ∧ (a = b → localeCompare a b ≤ 0).
Proof.
  intros Hlex Ha Hb. pose proof (Hlex a b Ha Hb) as Hc.
  unfold String.le, String.leb. rewrite <- Hc. split.
  - rewrite <- Z.compare_le_iff. by destruct (_ ?= 0).
  - intros ->. rewrite string_compare_refl in Hc.
    apply Z.compare_eq_iff in Hc. lia.
Qed.

(** ** More on the de-duplication *)

Lemma seen_after_sublist (signals : list SignalMarker) :
  JsMap.values (seen_after signals) `sublist_of` signals.
Proof.
  unfold JsMap.values.
  induction signals as [| x signals IH] using rev_ind; [done |].
  rewrite seen_after_snoc. case_bool_decide.
  - by apply sublist_inserts_r.
  - rewrite fmap_app. simpl. by apply sublist_app.
Qed.

Lemma seen_after_NoDup (signals : list SignalMarker) :
  NoDup (key <$> signals) → JsMap.values (seen_after signals) = signals.
Proof.
  unfold JsMap.values.
  induction signals as [| x signals IH] using rev_ind; [done |].
  rewrite fmap_app. intros (Hnd & Hfresh & _)%NoDup_app.
  rewrite seen_after_snoc.
  destruct (seen_after_spec signals) as (_ & Hdom & _ & _).
  rewrite bool_decide_eq_false_2.
  - rewrite fmap_app. simpl. by rewrite (IH Hnd).
  - intros (m & Hm & Hk)%Hdom. apply (Hfresh (key m)).
    + apply list_elem_of_fmap. by exists m.
    + rewrite Hk. simpl. by left.
Qed.

Lemma deduplicateSignals_keys_NoDup localeCompare signals :
  NoDup (key <$> _deduplicateSignals localeCompare signals).
Proof.
  rewrite deduplicateSignals_Permutation.
  destruct (seen_after_spec signals) as (Hkeys & _ & Hnodup & _).
  by rewrite <- Hkeys.
Qed.

Lemma seen_after_date_keys (signals : list SignalMarker) :
  Forall (λ m, isDateKey (time m) = true) signals →
  Forall (λ m, isDateKey (time m) = true)
    (JsMap.values (seen_after signals)).
Proof.
  rewrite !Forall_forall. intros H m Hm. apply H.
  eapply elem_of_sublist; [exact Hm | apply seen_after_sublist].
Qed.

(** X6.  Markers of the same time keep, after the sort, the order of their
    first occurrence in the input: for every time, the stored markers of
    that time are a subsequence of the input.  (The sort is stable and the
    comparator looks at the time only.) *)
Theorem deduplicateSignals_stable (localeCompare : string → string → Z)
    (signals : list SignalMarker) (t : string) :
  lexical_on_date_keys localeCompare →
  Forall (λ m, isDateKey (time m) = true) signals →
  filter (λ m, time m = t) (_deduplicateSignals localeCompare signals)
    `sublist_of` signals
  ∧ filter (λ m, time m = t) (_deduplicateSignals localeCompare signals)
    = filter (λ m, time m = t) (JsMap.values (seen_after signals)).
Proof.
  intros Hlex Hkeys.
  assert (filter (λ m, time m = t) (_deduplicateSignals localeCompare signals)
          = filter (λ m, time m = t) (JsMap.values (seen_after signals)))
    as Heq.
  { unfold _deduplicateSignals. fold (seen_after signals).
    apply (sort_filter_key _ (λ m, isDateKey (time m) = true)).
    - intros x y Hx Hy Hxy.
      destruct (lexical_le localeCompare (time y) (time x) Hlex Hy Hx)
        as [_ Htie].
      by apply Htie.
    - by apply seen_after_date_keys. }
  split; [| exact Heq]. rewrite Heq.
  etransitivity; [apply sublist_filter | apply seen_after_sublist].
Qed.

Lemma deduplicateSignals_stable_witness :
  filter (λ m, time m = "2024-02-01")
    (_deduplicateSignals codeUnitCompare
       [ createSignalMarker "2024-02-01" sell "B1" "" "second";
         createSignalMarker "2024-03-01" sell "A2" "" "first";
         createSignalMarker "2024-02-01" buy "A3" "" "first" ])
  `sublist_of`
    [ createSignalMarker "2024-02-01" sell "B1" "" "second";
      createSignalMarker "2024-03-01" sell "A2" "" "first";
      createSignalMarker "2024-02-01" buy "A3" "" "first" ].
Proof.
  apply (deduplicateSignals_stable codeUnitCompare _ "2024-02-01").
  - intros a b _ _. unfold codeUnitCompare. by destruct (a ?= b)%string.
  - repeat constructor.
Defined.

(** X7.  De-duplicating a de-duplicated sequence gives the same sequence
    again, in the same order. *)
Theorem deduplicateSignals_idempotent (localeCompare : string → string → Z)
    (signals : list SignalMarker) :
  lexical_on_date_keys localeCompare →
  Forall (λ m, isDateKey (time m) = true) signals →
  _deduplicateSignals localeCompare
    (_deduplicateSignals localeCompare signals)
  = _deduplicateSignals localeCompare signals.
Proof.
  intros Hlex Hkeys.
  pose proof (deduplicateSignals_keys_NoDup localeCompare signals) as Hnd.
  pose proof (deduplicateSignals_sorted localeCompare signals Hlex Hkeys)
    as Hsorted.
  assert (Forall (λ m, isDateKey (time m) = true)
            (_deduplicateSignals localeCompare signals)) as Hout.
  { rewrite deduplicateSignals_Permutation.
    by apply seen_after_date_keys. }
  unfold _deduplicateSignals at 1.
  fold (seen_after (_deduplicateSignals localeCompare signals)).
  rewrite (seen_after_NoDup _ Hnd).
  apply (sort_sorted_id _ time_descending (λ m, isDateKey (time m) = true));
    [| done | done].
  intros x y Hx Hy Hxy.
  destruct (lexical_le localeCompare (time y) (time x) Hlex Hy Hx) as [Hiff _].
  by apply Hiff.
Qed.

Lemma deduplicateSignals_idempotent_witness :
  _deduplicateSignals codeUnitCompare
    (_deduplicateSignals codeUnitCompare
       [ createSignalMarker "2024-01-01" buy "a" "" "s";
         createSignalMarker "2024-03-01" buy "b" "" "s";
         createSignalMarker "2024-01-01" buy "c" "" "s" ])
  = _deduplicateSignals codeUnitCompare
      [ createSignalMarker "2024-01-01" buy "a" "" "s";
        createSignalMarker "2024-03-01" buy "b" "" "s";
        createSignalMarker "2024-01-01" buy "c" "" "s" ].
Proof.
  apply (deduplicateSignals_idempotent codeUnitCompare).
  - intros a b _ _. unfold codeUnitCompare. by destruct (a ?= b)%string.
  - repeat constructor.
Defined.

(** X8.  The de-duplication invents nothing and loses no (time, type) pair:
    every stored marker is one of the input, every marker of the input has
    a stored marker with its time and type, and the stored sequence is no
    longer than the input.  This holds for any comparator. *)
Theorem deduplicateSignals_covers (localeCompare : string → string → Z)
    (signals : list SignalMarker) :
  (∀ m, m ∈ _deduplicateSignals localeCompare signals → m ∈ signals)
  ∧ (∀ m, m ∈ signals →
       ∃ m', m' ∈ _deduplicateSignals localeCompare signals
             ∧ time m' = time m ∧ type m' = type m)
  ∧ (length (_deduplicateSignals localeCompare signals) ≤ length signals)%nat
  ∧ (signals = [] → _deduplicateSignals localeCompare signals = []).
Proof.
  destruct (seen_after_spec signals) as (Hkeys & Hdom & _ & _).
  split_and!.
  - intros m. rewrite deduplicateSignals_Permutation. intros Hm.
    eapply elem_of_sublist; [exact Hm | apply seen_after_sublist].
  - intros m Hm.
    assert (key m ∈ key <$> JsMap.values (seen_after signals)) as Hin.
    { rewrite <- Hkeys. apply Hdom. by exists m. }
    apply list_elem_of_fmap in Hin as (m' & Hk & Hm').
    exists m'. rewrite deduplicateSignals_Permutation.
    symmetry in Hk. apply key_pair in Hk. by injection Hk as -> ->.
  - rewrite deduplicateSignals_Permutation.
    apply sublist_length, seen_after_sublist.
  - by intros ->.
Qed.

(** ** The chart's markers *)

Lemma toChartMarker_time (signal : SignalMarker) :
  ChartMarker.time (toChartMarker signal) = time signal.
Proof. unfold toChartMarker. by case_decide. Qed.

Lemma filter_toChartMarker (t : string) (signals : list SignalMarker) :
  filter (λ a, ChartMarker.time a = t) (toChartMarker <$> signals)
  = toChartMarker <$> filter (λ m, time m = t) signals.
Proof.
  induction signals as [| m signals IH]; [done |].
  rewrite fmap_cons, !filter_cons, toChartMarker_time, IH.
  by case_decide.
Qed.

(** X9.  [setMarkers] hands the chart one projected marker for each signal,
    ordered by time ascending (the aggregation stores them descending), the
    markers of one day in the order the signals had; with no signals it
    clears the markers. *)
Theorem setMarkers_ascending (localeCompare : string → string → Z)
    (signals : list SignalMarker) :
  lexical_on_date_keys localeCompare →
  Forall (λ m, isDateKey (time m) = true) signals →
  Chart.setMarkers localeCompare signals ≡ₚ toChartMarker <$> signals
  ∧ StronglySorted chart_ascending (Chart.setMarkers localeCompare signals)
  ∧ (∀ t, filter (λ a, ChartMarker.time a = t)
            (Chart.setMarkers localeCompare signals)
          = toChartMarker <$> filter (λ m, time m = t) signals)
  ∧ Chart.setMarkers localeCompare [] = [].
Proof.
  intros Hlex Hkeys. unfold Chart.setMarkers.
  destruct signals as [| m0 signals]; [by repeat split; try constructor |].
  rewrite bool_decide_eq_false_2 by done. cbv zeta.
  set (l := m0 :: signals) in *.
  assert (Forall (λ a, isDateKey (ChartMarker.time a) = true)
            (toChartMarker <$> l)) as HP.
  { apply Forall_fmap. eapply Forall_impl; [exact Hkeys |].
    intros m Hm. simpl. by rewrite toChartMarker_time. }
  split_and!; [apply sort_Permutation | | | done].
  - apply (sort_StronglySorted _ _
             (λ a, isDateKey (ChartMarker.time a) = true)); [| | | done].
    + intros x y Hx Hy Hc.
      by apply (lexical_le localeCompare _ _ Hlex Hx Hy).
    + intros x y Hx Hy Hc. unfold chart_ascending, String.le, String.leb.
      rewrite String.compare_antisym, <- (Hlex _ _ Hx Hy).
      apply Z.compare_gt_iff in Hc. by rewrite Hc.
    + intros a b c Hab Hbc. unfold chart_ascending in *.
      by transitivity (ChartMarker.time b).
  - intros t. rewrite <- filter_toChartMarker.
    apply (sort_filter_key _ (λ a, isDateKey (ChartMarker.time a) = true));
      [| done].
    intros x y Hx Hy Hxy.
    by apply (lexical_le localeCompare _ _ Hlex Hx Hy).
Qed.

Lemma setMarkers_ascending_witness :
  ChartMarker.time <$> Chart.setMarkers codeUnitCompare
    [ createSignalMarker "2024-03-01" sell "A2" "" "first";
      createSignalMarker "2024-02-01" buy "A3" "" "first";
      createSignalMarker "2024-01-01" buy "A1" "" "first" ]
  = ["2024-01-01"; "2024-02-01"; "2024-03-01"]
  ∧ StronglySorted chart_ascending
      (Chart.setMarkers codeUnitCompare
         [ createSignalMarker "2024-03-01" sell "A2" "" "first";
           createSignalMarker "2024-02-01" buy "A3" "" "first";
           createSignalMarker "2024-01-01" buy "A1" "" "first" ]).
Proof.
  split; [reflexivity |].
  apply (setMarkers_ascending codeUnitCompare).
  - intros a b _ _. unfold codeUnitCompare. by destruct (a ?= b)%string.
  - repeat constructor.
Defined.

(** ** The history panel *)

(** X10.  The panel shows the first ten stored signals, or all of them when
    there are fewer, and no signal left out is more recent than one that is
    shown. *)
Theorem recentSignals_most_recent (localeCompare : string → string → Z)
    (signals : list SignalMarker) :
  lexical_on_date_keys localeCompare →
  Forall (λ m, isDateKey (time m) = true) signals →
  length (Panel.recentSignals (_deduplicateSignals localeCompare signals))
    = (10 `min` length (_deduplicateSignals localeCompare signals))%nat
  ∧ ∀ shown hidden,
      shown ∈ Panel.recentSignals (_deduplicateSignals localeCompare signals) →
      hidden ∈ drop 10 (_deduplicateSignals localeCompare signals) →
      (time hidden ≤ time shown)%string.
Proof.
  intros Hlex Hkeys. unfold Panel.recentSignals.
  split; [apply length_take |]. intros shown hidden Hs Hh.
  pose proof (deduplicateSignals_sorted localeCompare signals Hlex Hkeys)
    as Hsorted.
  rewrite <- (take_drop 10) in Hsorted.
  exact (StronglySorted_app_1_elem_of _ _ _ _ _ Hsorted Hs Hh).
Qed.

Lemma recentSignals_most_recent_witness :
  length (Panel.recentSignals
            (_deduplicateSignals codeUnitCompare
               [ createSignalMarker "2024-01-01" buy "a" "" "s";
                 createSignalMarker "2024-03-01" buy "b" "" "s" ]))
  = 2%nat.
Proof.
  pose proof (recentSignals_most_recent codeUnitCompare
    [ createSignalMarker "2024-01-01" buy "a" "" "s";
      createSignalMarker "2024-03-01" buy "b" "" "s" ]) as H.
  destruct H as [Hlen _].
  - intros a b _ _. unfold codeUnitCompare. by destruct (a ?= b)%string.
  - repeat constructor.
  - exact Hlen.
Defined.

(** ** The refresh timer *)

Lemma one_timer_step st a : one_timer st → one_timer (AutoUpdate.step st a).
Proof.
  destruct st as [[[h |] auto] [run next]]; unfold one_timer; simpl;
    intros ->; destruct a as [| | [|]]; simpl;
    by rewrite ?difference_diag_L, ?union_empty_r_L.
Qed.

(** X11.  Whatever sequence of starts, stops and checkbox changes follows
    the constructor, at most one refresh interval runs, and it is the one
    whose handle the application holds; after a stop, and after the box is
    unchecked, none runs; a second start in a row changes nothing. *)
Theorem autoUpdate_one_timer (actions : list AutoUpdate.Action) :
  one_timer (foldl AutoUpdate.step AutoUpdate.initial actions)
  ∧ (size (AutoUpdate.running
             (foldl AutoUpdate.step AutoUpdate.initial actions).2) ≤ 1)%nat
  ∧ AutoUpdate.running
      (AutoUpdate._stopAutoUpdate
         (foldl AutoUpdate.step AutoUpdate.initial actions)).2 = ∅
  ∧ AutoUpdate.running
      (AutoUpdate.onAutoUpdateChange false
         (foldl AutoUpdate.step AutoUpdate.initial actions)).2 = ∅
  ∧ AutoUpdate._startAutoUpdate
      (AutoUpdate._startAutoUpdate
         (foldl AutoUpdate.step AutoUpdate.initial actions))
    = AutoUpdate._startAutoUpdate
        (foldl AutoUpdate.step AutoUpdate.initial actions).
Proof.
  assert (one_timer (foldl AutoUpdate.step AutoUpdate.initial actions))
    as Hinv.
  { induction actions as [| a actions IH] using rev_ind; [done |].
    rewrite foldl_snoc. by apply one_timer_step. }
  pose proof (one_timer_step _ AutoUpdate.Stop Hinv) as Hstop.
  pose proof (one_timer_step _ (AutoUpdate.Toggle false) Hinv) as Hoff.
  revert Hinv Hstop Hoff.
  generalize (foldl AutoUpdate.step AutoUpdate.initial actions).
  intros [[[h |] auto] [run next]]; unfold one_timer; simpl;
    intros Hinv Hstop Hoff.
  - split_and!; try done. rewrite Hinv, size_singleton. lia.
  - split_and!; try done. rewrite Hinv, size_empty. lia.
Qed.

(** ** The insertion-ordered map, with overwriting *)

Lemma JsMap_set_keys {V : Type} (m : JsMap.t V) (k : string) (v : V) :
  (JsMap.set m k v).*1 = if bool_decide (k ∈ m.*1) then m.*1 else m.*1 ++ [k].
Proof.
  induction m as [| [k' w] m IH]; [done |]. cbn [JsMap.set].
  destruct (decide (k' = k)) as [-> | Hne]; rewrite !fmap_cons; cbn [fst].
  - rewrite bool_decide_eq_true_2; [done | by left].
  - rewrite IH. case_bool_decide as Hin.
    + rewrite bool_decide_eq_true_2; [done | by right].
    + rewrite bool_decide_eq_false_2; [done |].
      rewrite not_elem_of_cons. by split.
Qed.

Lemma JsMap_set_NoDup {V : Type} (m : JsMap.t V) (k : string) (v : V) :
  NoDup m.*1 → NoDup (JsMap.set m k v).*1.
Proof.
  intros Hnd. rewrite JsMap_set_keys. case_bool_decide as Hin; [done |].
  apply NoDup_app. split_and!; [done | | apply NoDup_singleton].
  by intros k' Hk' ->%list_elem_of_singleton.
Qed.

Lemma JsMap_set_elem_of {V : Type} (m : JsMap.t V) (k : string) (v : V)
    (k' : string) (v' : V) :
  NoDup m.*1 →
  (k', v') ∈ JsMap.set m k v ↔
  (k' = k ∧ v' = v) ∨ (k' ≠ k ∧ (k', v') ∈ m).
Proof.
  induction m as [| [k1 w] m IH]; simpl; intros Hnd.
  - rewrite list_elem_of_singleton. split.
    + intros [= -> ->]. by left.
    + intros [[-> ->] | [_ ?%elem_of_nil]]; done.
  - apply NoDup_cons in Hnd as [Hk1 Hnd].
    destruct (decide (k1 = k)) as [-> | Hne].
    + rewrite !elem_of_cons. split.
      * intros [[= -> ->] | Hin]; [by left |]. right. split; [| by right].
        intros ->. apply Hk1. apply list_elem_of_fmap. by exists (k, v').
      * intros [[-> ->] | [Hne [[= -> ->] | Hin]]]; [by left | done | by right].
    + rewrite !elem_of_cons, (IH Hnd). split.
      * intros [[= -> ->] | [[-> ->] | [Hne' Hin]]].
        -- right. split; [done | by left].
        -- by left.
        -- right. split; [done | by right].
      * intros [[-> ->] | [Hne' [[= -> ->] | Hin]]].
        -- right. by left.
        -- by left.
        -- right. right. by split.
Qed.

(** ** The candles of several years *)

Lemma last_with_key_snoc (candles : list Candle.t) (x : Candle.t) (i : nat)
    (c : Candle.t) :
  last_with_key (candles ++ [x]) i c ↔
  (i = length candles ∧ c = x)
  ∨ (last_with_key candles i c ∧ Candle.time x ≠ Candle.time c).
Proof.
  unfold last_with_key. rewrite lookup_snoc_Some. split.
  - intros [[[Hlt Hi] | [-> <-]] Hlast]; [| by left].
    right. split_and!; [done | |].
    + intros j c' Hj Hc'. apply (Hlast j); [done |].
      by apply lookup_app_l_Some.
    + apply (Hlast (length candles)); [done |].
      by apply list_lookup_middle.
  - intros [[-> ->] | [[Hi Hlast] Hx]].
    + split; [by right |]. intros j c' Hj Hc'.
      apply lookup_lt_Some in Hc'. rewrite length_app in Hc'. simpl in Hc'. lia.
    + pose proof (lookup_lt_Some _ _ _ Hi) as Hlt.
      split; [left; by split |]. intros j c' Hj Hc'.
      apply lookup_snoc_Some in Hc' as [[_ Hc'] | [_ <-]]; [| done].
      by apply (Hlast j).
Qed.

Lemma Map_of_entries_snoc (candles : list Candle.t) (x : Candle.t) :
  Bitbank.Map_of_entries ((λ c, (Candle.time c, c)) <$> candles ++ [x])
  = JsMap.set (Bitbank.Map_of_entries ((λ c, (Candle.time c, c)) <$> candles))
      (Candle.time x) x.
Proof. unfold Bitbank.Map_of_entries. by rewrite fmap_app, foldl_app. Qed.

Lemma Map_of_entries_spec (candles : list Candle.t) :
  NoDup (Bitbank.Map_of_entries ((λ c, (Candle.time c, c)) <$> candles)).*1
  ∧ ∀ k c,
      (k, c) ∈ Bitbank.Map_of_entries ((λ c, (Candle.time c, c)) <$> candles)
      ↔ k = Candle.time c ∧ ∃ i, last_with_key candles i c.
Proof.
  induction candles as [| x candles [Hnd Hin]] using rev_ind.
  - split; [constructor |]. intros k c. split; [by intros ?%elem_of_nil |].
    by intros (_ & i & Hi & _).
  - rewrite Map_of_entries_snoc. split; [by apply JsMap_set_NoDup |].
    intros k c. rewrite (JsMap_set_elem_of _ _ _ _ _ Hnd), Hin.
    setoid_rewrite last_with_key_snoc. split.
    + intros [[-> ->] | (Hne & -> & i & Hi)].
      * split; [done |]. exists (length candles). by left.
      * split; [done |]. exists i. right. by split.
    + intros (-> & i & [[_ ->] | [Hi Hne]]); [by left |].
      right. split_and!; [done | done | by exists i].
Qed.

Lemma keyed_values (m : JsMap.t Candle.t) :
  (∀ k c, (k, c) ∈ m → k = Candle.time c) → Candle.time <$> m.*2 = m.*1.
Proof.
  induction m as [| [k c] m IH]; intros H; [done |].
  rewrite !fmap_cons. cbn [fst snd]. rewrite IH.
  - f_equal. symmetry. apply H. by left.
  - intros k' c' Hin. apply H. by right.
Qed.

Lemma uniqueCandles_elem_of localeCompare (allCandles : list Candle.t)
    (c : Candle.t) :
  c ∈ Bitbank.uniqueCandles localeCompare allCandles ↔
  ∃ i, last_with_key allCandles i c.
Proof.
  destruct (Map_of_entries_spec allCandles) as [_ Hin].
  unfold Bitbank.uniqueCandles, JsMap.values.
  rewrite sort_Permutation, list_elem_of_fmap. split.
  - intros ([k c'] & -> & Hkc). by apply Hin in Hkc as [_ Hi].
  - intros Hi. exists (Candle.time c, c). split; [done |]. by apply Hin.
Qed.

Lemma last_with_key_exists (candles : list Candle.t) (c : Candle.t) :
  c ∈ candles →
  ∃ c' i, last_with_key candles i c' ∧ Candle.time c' = Candle.time c.
Proof.
  induction candles as [| x l IH] using rev_ind;
    [by intros ?%elem_of_nil |].
  intros Hc. setoid_rewrite last_with_key_snoc.
  destruct (decide (Candle.time x = Candle.time c)) as [Hx | Hx].
  - exists x, (length l). split; [by left | done].
  - apply elem_of_app in Hc as [Hc | ->%list_elem_of_singleton]; [| done].
    destruct (IH Hc) as (c' & i & Hi & Ht).
    exists c', i. split; [| done]. right. split; [done |]. by rewrite Ht.
Qed.

Lemma uniqueCandles_keys localeCompare (allCandles : list Candle.t)
    (k : string) :
  k ∈ Candle.time <$> Bitbank.uniqueCandles localeCompare allCandles
  ↔ k ∈ Candle.time <$> allCandles.
Proof.
  rewrite !list_elem_of_fmap. split.
  - intros (c & -> & [i [Hi _]]%uniqueCandles_elem_of).
    exists c. split; [done |]. by eapply list_elem_of_lookup_2.
  - intros (c & -> & Hc).
    destruct (last_with_key_exists _ _ Hc) as (c' & i & Hi & Ht).
    exists c'. split; [done |]. apply uniqueCandles_elem_of. by exists i.
Qed.

(** X12.  The candles that [fetchCandlestickMultiYear] returns have pairwise
    different time keys, the same set of keys as the candles fetched, for
    each key the candle fetched last with it, and (the keys being date keys
    on which [localeCompare] is the lexical order) they ascend by time. *)
Theorem uniqueCandles_spec (localeCompare : string → string → Z)
    (allCandles : list Candle.t) :
  NoDup (Candle.time <$> Bitbank.uniqueCandles localeCompare allCandles)
  ∧ (∀ c, c ∈ Bitbank.uniqueCandles localeCompare allCandles ↔
          ∃ i, last_with_key allCandles i c)
  ∧ (∀ k, k ∈ Candle.time <$> Bitbank.uniqueCandles localeCompare allCandles
          ↔ k ∈ Candle.time <$> allCandles)
  ∧ (lexical_on_date_keys localeCompare →
     Forall (λ c, isDateKey (Candle.time c) = true) allCandles →
     StronglySorted candle_ascending
       (Bitbank.uniqueCandles localeCompare allCandles)).
Proof.
  split_and!.
  - destruct (Map_of_entries_spec allCandles) as [Hnd Hin].
    unfold Bitbank.uniqueCandles, JsMap.values. rewrite sort_Permutation.
    rewrite keyed_values; [done |].
    intros k c Hkc. by apply Hin in Hkc as [-> _].
  - apply uniqueCandles_elem_of.
  - apply uniqueCandles_keys.
  - intros Hlex Hall. unfold Bitbank.uniqueCandles.
    apply (sort_StronglySorted _ _ (λ c, isDateKey (Candle.time c) = true)).
    + intros x y Hx Hy Hc. by apply (lexical_le localeCompare _ _ Hlex Hx Hy).
    + intros x y Hx Hy Hc. unfold candle_ascending, String.le, String.leb.
      rewrite String.compare_antisym, <- (Hlex _ _ Hx Hy).
      apply Z.compare_gt_iff in Hc. by rewrite Hc.
    + intros a b c Hab Hbc. unfold candle_ascending in *.
      by transitivity (Candle.time b).
    + rewrite Forall_forall in *. intros c Hc. apply Hall.
      assert (c ∈ Bitbank.uniqueCandles localeCompare allCandles) as Hc'
        by (unfold Bitbank.uniqueCandles; by rewrite sort_Permutation).
      apply uniqueCandles_elem_of in Hc' as [i [Hi _]].
      by eapply list_elem_of_lookup_2.
Qed.

(** ** What [calculate] depends on *)

Lemma forEach_ext {A S : Type} (arr : list A) (body1 body2 : S → A → result S)
    (acc : S) :
  (∀ acc0 x, x ∈ arr → body1 acc0 x = body2 acc0 x) →
  forEach arr body1 acc = forEach arr body2 acc.
Proof.
  revert acc. induction arr as [| x arr IH]; intros acc Hext; [done |].
  simpl. rewrite (Hext acc x) by (by left).
  destruct (body2 acc x) as [acc' | e]; [| done]. simpl.
  apply IH. intros acc0 y Hy. apply Hext. by right.
Qed.

Lemma uniqueCandles_nonempty localeCompare (allCandles : list Candle.t) :
  allCandles ≠ [] → Bitbank.uniqueCandles localeCompare allCandles ≠ [].
Proof.
  intros Hne Hnil. destruct allCandles as [| c l]; [done |].
  pose proof (uniqueCandles_keys localeCompare (c :: l) (Candle.time c)) as Hk.
  rewrite Hnil in Hk.
  rewrite fmap_cons in Hk. apply (elem_of_nil (Candle.time c)).
  apply Hk. by left.
Qed.

Lemma calculate_same_keys this candles1 candles2 index1 index2 history :
  history ≠ [] → candles1 ≠ [] → candles2 ≠ [] →
  (∀ k, k ∈ Candle.time <$> candles1 ↔ k ∈ Candle.time <$> candles2) →
  FearGreed.calculate this candles1
    {| FearGreed.fearGreedIndex := index1;
       FearGreed.fearGreedHistory := Some history |}
  = FearGreed.calculate this candles2
      {| FearGreed.fearGreedIndex := index2;
         FearGreed.fearGreedHistory := Some history |}.
Proof.
  intros Hh Hc1 Hc2 Hkeys. unfold FearGreed.calculate.
  destruct (enabled this); [| done].
  cbn [negb FearGreed.fearGreedHistory default from_option]. cbv zeta.
  rewrite !nonempty_length, !bool_decide_eq_true_2 by done. cbn [andb].
  apply forEach_ext. intros acc fgData _.
  destruct (JsDate.toISODate _) as [dateStr | e]; [| done]. simpl.
  rewrite !has_candleMap. by rewrite (bool_decide_ext _ _ (Hkeys dateStr)).
Qed.

(** X13.  In historical mode [calculate] reads of the candles only the set
    of their time keys, and does not read the live index: two candle series
    with the same keys, in any order and with any repetitions and prices,
    give the same result (the same markers or the same exception) for every
    index.  So the candles of several years give what the candles as
    fetched would give. *)
Theorem calculate_historical_reads_keys (this : FearGreedStrategy)
    (candles1 candles2 : list Candle.t) (index1 index2 : option Z)
    (history : list FgData) :
  history ≠ [] → candles1 ≠ [] → candles2 ≠ [] →
  (∀ k, k ∈ Candle.time <$> candles1 ↔ k ∈ Candle.time <$> candles2) →
  FearGreed.calculate this candles1
    {| FearGreed.fearGreedIndex := index1;
       FearGreed.fearGreedHistory := Some history |}
  = FearGreed.calculate this candles2
      {| FearGreed.fearGreedIndex := index2;
         FearGreed.fearGreedHistory := Some history |}
  ∧ ∀ localeCompare,
      FearGreed.calculate this
        (Bitbank.uniqueCandles localeCompare candles1)
        {| FearGreed.fearGreedIndex := index1;
           FearGreed.fearGreedHistory := Some history |}
      = FearGreed.calculate this candles1
          {| FearGreed.fearGreedIndex := index1;
             FearGreed.fearGreedHistory := Some history |}.
Proof.
  intros Hh Hc1 Hc2 Hkeys. split; [by apply calculate_same_keys |].
  intros localeCompare.
  apply calculate_same_keys; [done | by apply uniqueCandles_nonempty | done |].
  apply uniqueCandles_keys.
Qed.

Lemma calculate_historical_reads_keys_witness :
  FearGreed.calculate FearGreed.new example_candles
    {| FearGreed.fearGreedIndex := Some 5;
       FearGreed.fearGreedHistory := Some example_history |}
  = FearGreed.calculate FearGreed.new
      [candle_at "2024-01-03"; candle_at "2024-01-01"; candle_at "2024-01-02";
       candle_at "2024-01-01"]
      {| FearGreed.fearGreedIndex := None;
         FearGreed.fearGreedHistory := Some example_history |}.
Proof.
  apply (calculate_historical_reads_keys FearGreed.new example_candles
           [candle_at "2024-01-03"; candle_at "2024-01-01";
            candle_at "2024-01-02"; candle_at "2024-01-01"]
           (Some 5) None example_history); try discriminate.
  intros k. unfold example_candles. rewrite !fmap_cons, !elem_of_cons.
  simpl. tauto.
Defined.

(** ** Wider thresholds *)

Lemma filter_sublist_impl {A : Type} (P Q : A → Prop)
    `{∀ x, Decision (P x)} `{∀ x, Decision (Q x)} (l : list A) :
  (∀ x, P x → Q x) → filter P l `sublist_of` filter Q l.
Proof.
  intros HPQ. induction l as [| x l IH]; [done |].
  rewrite !filter_cons. destruct (decide (P x)) as [HP | HP].
  - rewrite decide_True by auto. by apply sublist_skip.
  - case_decide; [by apply sublist_cons | done].
Qed.

(** X14.  Raising the buy threshold or lowering the sell threshold never
    loses a signal date: the dates marked with the narrower thresholds are
    a subsequence of the dates marked with the wider ones (the type of a
    marker may change from sell to buy). *)
Theorem calculate_wider_thresholds (this wider : FearGreedStrategy)
    (candles : list Candle.t) (index : option Z) (history : list FgData) :
  enabled this = true → enabled wider = true →
  buyThreshold this ≤ buyThreshold wider →
  sellThreshold wider ≤ sellThreshold this →
  history ≠ [] → candles ≠ [] → Forall in_date_range history →
  ∃ out out',
    FearGreed.calculate this candles
      {| FearGreed.fearGreedIndex := index;
         FearGreed.fearGreedHistory := Some history |} = Ok out
    ∧ FearGreed.calculate wider candles
        {| FearGreed.fearGreedIndex := index;
           FearGreed.fearGreedHistory := Some history |} = Ok out'
    ∧ (time <$> out) `sublist_of` (time <$> out')
    ∧ (length out ≤ length out')%nat.
Proof.
  intros He He' Hb Hs Hh Hc Hall.
  exists (backfill_spec this candles history),
         (backfill_spec wider candles history).
  split; [by apply calculate_historical |].
  split; [by apply calculate_historical |].
  assert (filter (λ fgData, dateKey fgData ∈ Candle.time <$> candles
                            ∧ crosses this (value fgData)) history
          `sublist_of`
          filter (λ fgData, dateKey fgData ∈ Candle.time <$> candles
                            ∧ crosses wider (value fgData)) history) as Hsub.
  { apply filter_sublist_impl. unfold crosses. intros x [Hk Hx].
    split; [done | lia]. }
  split.
  - unfold backfill_spec. rewrite <- !list_fmap_compose.
    change (time ∘ (λ fgData, marker_at this (dateKey fgData) (value fgData)))
      with dateKey.
    change (time ∘ (λ fgData, marker_at wider (dateKey fgData) (value fgData)))
      with dateKey.
    by apply fmap_sublist.
  - unfold backfill_spec. rewrite !length_fmap. by apply sublist_length.
Qed.

Lemma calculate_wider_thresholds_witness :
  ∃ out out',
    FearGreed.calculate FearGreed.new example_candles
      {| FearGreed.fearGreedIndex := None;
         FearGreed.fearGreedHistory := Some example_history |} = Ok out
    ∧ FearGreed.calculate inverted example_candles
        {| FearGreed.fearGreedIndex := None;
           FearGreed.fearGreedHistory := Some example_history |} = Ok out'
    ∧ (time <$> out) `sublist_of` (time <$> out')
    ∧ (length out ≤ length out')%nat.
Proof.
  apply (calculate_wider_thresholds FearGreed.new inverted example_candles
           None example_history);
    try reflexivity; try discriminate.
  repeat constructor; vm_compute; discriminate.
Defined.

(** ** Date keys sort like the days they name *)

Lemma string_compare_app (a a' b b' : string) :
  String.length a = String.length a' →
  (a +:+ b ?= a' +:+ b')%string =
  match (a ?= a')%string with
  | Eq => (b ?= b')%string
  | c => c
  end.
Proof.
  revert a'. induction a as [| c a IH]; intros [| c' a']; simpl; try done.
  intros [= Hlen]. destruct (Ascii.compare c c'); [by apply IH | done | done].
Qed.

Lemma string_compare_Lt_trans (a b c : string) :
  (a ?= b)%string = Lt → (b ?= c)%string = Lt → (a ?= c)%string = Lt.
Proof.
  intros Hab Hbc.
  assert ((a ≤ c)%string) as Hle.
  { transitivity b; unfold String.le, String.leb; [by rewrite Hab | by rewrite Hbc]. }
  unfold String.le, String.leb in Hle.
  destruct (a ?= c)%string eqn:Hac; [| done | done].
  apply String.compare_eq_iff in Hac as ->.
  rewrite String.compare_antisym, Hbc in Hab. done.
Qed.

(** A function on integers whose neighbouring values ascend, ascends. *)
Lemma string_chain_Lt (f : Z → string) (lo len : Z) :
  forallb (λ y, match (f y ?= f (y + 1))%string with
                | Lt => true
                | _ => false
                end) (seqZ lo len) = true →
  ∀ y y', lo ≤ y → y < y' → y' ≤ lo + len → (f y ?= f y')%string = Lt.
Proof.
  intros Hadj.
  assert (∀ y, lo ≤ y < lo + len → (f y ?= f (y + 1))%string = Lt) as Hstep.
  { intros y Hy. pose proof (forallb_seqZ _ lo len y Hadj Hy) as H.
    simpl in H. by destruct (f y ?= f (y + 1))%string. }
  intros y y' Hlo Hlt Hhi.
  replace y' with (y + 1 + Z.of_nat (Z.to_nat (y' - y - 1))) in * by lia.
  generalize dependent (Z.to_nat (y' - y - 1)). intros n.
  induction n as [| n IH]; intros Hlt Hhi.
  - rewrite Z.add_0_r. apply Hstep. lia.
  - eapply string_compare_Lt_trans; [apply IH; lia |].
    replace (y + 1 + Z.of_nat (S n)) with (y + 1 + Z.of_nat n + 1) by lia.
    apply Hstep. lia.
Qed.

Lemma yearString_Lt (y y' : Z) :
  0 ≤ y → y < y' → y' ≤ 9999 →
  (JsDate.yearString y ?= JsDate.yearString y')%string = Lt.
Proof.
  apply (string_chain_Lt JsDate.yearString 0 9999). vm_compute. reflexivity.
Qed.

Lemma padStart_Lt (n n' : Z) :
  1 ≤ n → n < n' → n' ≤ 31 →
  (JsDate.padStart 2 n ?= JsDate.padStart 2 n')%string = Lt.
Proof.
  apply (string_chain_Lt (JsDate.padStart 2) 1 30). vm_compute. reflexivity.
Qed.

Lemma digits_length (n : nat) (s : string) :
  digits n s = true → String.length s = n.
Proof. unfold digits. by intros [?%bool_decide_eq_true _]%andb_true_iff. Qed.

(** Within one year a later day has a later month, or the same month and a
    later date. *)
Lemma Month_Date_mono (w1 w2 leap : Z) :
  0 ≤ w1 → w1 < w2 → w2 < 365 + leap → 0 ≤ leap ≤ 1 →
  JsDate.MonthFromDay w1 leap < JsDate.MonthFromDay w2 leap
  ∨ (JsDate.MonthFromDay w1 leap = JsDate.MonthFromDay w2 leap
     ∧ JsDate.DateFromDay w1 leap < JsDate.DateFromDay w2 leap).
Proof.
  intros H1 H12 H2 Hl. unfold JsDate.DateFromDay.
  assert (∀ w, 0 ≤ w < 365 + leap →
    let m := JsDate.MonthFromDay w leap in
    (m = 0 ∧ w < 31) ∨ (m = 1 ∧ 31 ≤ w < 59 + leap)
    ∨ (m = 2 ∧ 59 + leap ≤ w < 90 + leap)
    ∨ (m = 3 ∧ 90 + leap ≤ w < 120 + leap)
    ∨ (m = 4 ∧ 120 + leap ≤ w < 151 + leap)
    ∨ (m = 5 ∧ 151 + leap ≤ w < 181 + leap)
    ∨ (m = 6 ∧ 181 + leap ≤ w < 212 + leap)
    ∨ (m = 7 ∧ 212 + leap ≤ w < 243 + leap)
    ∨ (m = 8 ∧ 243 + leap ≤ w < 273 + leap)
    ∨ (m = 9 ∧ 273 + leap ≤ w < 304 + leap)
    ∨ (m = 10 ∧ 304 + leap ≤ w < 334 + leap)
    ∨ (m = 11 ∧ 334 + leap ≤ w)) as Hm.
  { intros w Hw. unfold JsDate.MonthFromDay. cbv zeta.
    repeat (case_match;
            [match goal with E : (_ <? _) = true |- _ =>
               apply Z.ltb_lt in E end; lia |]);
    repeat match goal with
           | E : (_ <? _) = false |- _ => apply Z.ltb_ge in E
           end; lia. }
  pose proof (Hm w1 ltac:(lia)) as Hm1. pose proof (Hm w2 ltac:(lia)) as Hm2.
  cbv zeta in Hm1, Hm2.
  destruct_or! Hm1; destruct_or! Hm2;
    destruct Hm1 as [-> ?]; destruct Hm2 as [-> ?]; lia.
Qed.

Lemma YearFromDay_mono (d1 d2 : Z) :
  d1 ≤ d2 → JsDate.YearFromDay d1 ≤ JsDate.YearFromDay d2.
Proof.
  intros Hd. pose proof (YearFromDay_spec d1) as H1.
  pose proof (YearFromDay_spec d2) as H2.
  revert H1 H2.
  generalize (JsDate.YearFromDay d1) (JsDate.YearFromDay d2). intros y1 y2.
  unfold JsDate.DayFromYear. intros H1 H2. Z.div_mod_to_equations. lia.
Qed.

Lemma InLeapYear_range (y : Z) :
  0 ≤ JsDate.InLeapYear y ≤ 1
  ∧ JsDate.DaysInYear y = 365 + JsDate.InLeapYear y.
Proof.
  unfold JsDate.InLeapYear.
  assert (JsDate.DaysInYear y = 365 ∨ JsDate.DaysInYear y = 366) as [He | He]
    by (unfold JsDate.DaysInYear; repeat case_match; auto);
    rewrite He; simpl; lia.
Qed.

(** The date key of a later day of the years 0000 to 9999 is the greater
    string. *)
Lemma isoDate_Lt (t1 t2 : Z) :
  four_digit_year t1 → four_digit_year t2 →
  JsDate.Day t1 < JsDate.Day t2 →
  (JsDate.isoDate t1 ?= JsDate.isoDate t2)%string = Lt.
Proof.
  unfold four_digit_year. intros Ht1 Ht2 Hlt. unfold JsDate.isoDate. cbv zeta.
  assert (∀ t, -62167219200000 ≤ t ≤ 253402300799999 →
               -719528 ≤ JsDate.Day t ≤ 2932896) as Hday.
  { intros t Ht. unfold JsDate.Day, JsDate.msPerDay.
    Z.div_mod_to_equations. lia. }
  pose proof (Hday t1 Ht1) as Hd1. pose proof (Hday t2 Ht2) as Hd2.
  revert Hlt Hd1 Hd2. generalize (JsDate.Day t1) (JsDate.Day t2).
  clear. intros d1 d2 Hlt Hd1 Hd2.
  pose proof (YearFromDay_range d1 Hd1) as Hy1.
  pose proof (YearFromDay_range d2 Hd2) as Hy2.
  pose proof (YearFromDay_mono d1 d2 ltac:(lia)) as Hmono.
  pose proof (YearFromDay_spec d1) as Hs1.
  pose proof (YearFromDay_spec d2) as Hs2.
  pose proof (DaysInYear_spec (JsDate.YearFromDay d1)) as Hl1.
  pose proof (DaysInYear_spec (JsDate.YearFromDay d2)) as Hl2.
  destruct (InLeapYear_range (JsDate.YearFromDay d1)) as [Hleap1 Hlen1].
  destruct (InLeapYear_range (JsDate.YearFromDay d2)) as [Hleap2 Hlen2].
  set (y1 := JsDate.YearFromDay d1) in *.
  set (y2 := JsDate.YearFromDay d2) in *.
  rewrite (string_compare_app (JsDate.yearString y1) (JsDate.yearString y2))
    by (by rewrite !(digits_length 4) by (by apply yearString_digits)).
  destruct (decide (y1 = y2)) as [Heq | Hne];
    [| by rewrite yearString_Lt by lia].
  rewrite <- Heq in *. clear Heq Hmono Hl2 Hleap2 Hlen2 Hy2.
  rewrite string_compare_refl.
  set (w1 := d1 - JsDate.DayFromYear y1) in *.
  set (w2 := d2 - JsDate.DayFromYear y1) in *.
  set (leap := JsDate.InLeapYear y1) in *.
  assert (0 ≤ w1 ∧ w1 < w2 ∧ w2 < 365 + leap) as (Hw1 & Hw12 & Hw2)
    by (subst w1 w2; lia).
  destruct (MonthFromDay_DateFromDay_range w1 leap ltac:(lia) Hleap1)
    as [Hm1 Hdt1].
  destruct (MonthFromDay_DateFromDay_range w2 leap ltac:(lia) Hleap1)
    as [Hm2 Hdt2].
  rewrite (string_compare_app "-" "-") by done. simpl (("-" ?= "-")%string).
  rewrite (string_compare_app (JsDate.padStart 2 _) (JsDate.padStart 2 _))
    by (by rewrite !(digits_length 2) by (apply padStart_digits; lia)).
  destruct (Month_Date_mono w1 w2 leap Hw1 Hw12 Hw2 Hleap1) as [Hm | [Hm Hd]].
  - by rewrite padStart_Lt by lia.
  - rewrite Hm, string_compare_refl.
    rewrite (string_compare_app "-" "-") by done. simpl (("-" ?= "-")%string).
    by rewrite padStart_Lt by lia.
Qed.

(** X15.  For times in the years 0000 to 9999 the lexical order of the date
    keys is the order of the UTC days: comparing two keys as strings gives
    what comparing the day numbers gives, so equal keys mean the same day
    and sorting by key, as the aggregation and the candle fetch do, sorts
    by day. *)
Theorem isoDate_compare (t1 t2 : Z) :
  four_digit_year t1 → four_digit_year t2 →
  (JsDate.isoDate t1 ?= JsDate.isoDate t2)%string
    = (JsDate.Day t1 ?= JsDate.Day t2)
  ∧ (JsDate.isoDate t1 = JsDate.isoDate t2 ↔ JsDate.Day t1 = JsDate.Day t2)
  ∧ (t1 ≤ t2 → (JsDate.isoDate t1 ≤ JsDate.isoDate t2)%string).
Proof.
  intros H1 H2.
  assert ((JsDate.isoDate t1 ?= JsDate.isoDate t2)%string
          = (JsDate.Day t1 ?= JsDate.Day t2)) as Hcmp.
  { destruct (Z.compare_spec (JsDate.Day t1) (JsDate.Day t2)) as [He | Hl | Hg].
    - unfold JsDate.isoDate. cbv zeta. rewrite He. apply string_compare_refl.
    - by apply isoDate_Lt.
    - rewrite String.compare_antisym. by rewrite isoDate_Lt. }
  split_and!; [exact Hcmp | |].
  - split.
    + intros He. rewrite He, string_compare_refl in Hcmp.
      symmetry in Hcmp. by apply Z.compare_eq_iff in Hcmp.
    + intros He. unfold JsDate.isoDate. cbv zeta. by rewrite He.
  - intros Hle. unfold String.le, String.leb. rewrite Hcmp.
    assert (JsDate.Day t1 ≤ JsDate.Day t2) as Hd.
    { unfold JsDate.Day, JsDate.msPerDay. Z.div_mod_to_equations. lia. }
    apply Z.compare_le_iff in Hd. by destruct (_ ?= _).
Qed.

Lemma isoDate_compare_witness :
  (four_digit_year 1704067200000 ∧ four_digit_year 1704412800000)
  ∧ (JsDate.isoDate 1704067200000 ?= JsDate.isoDate 1704412800000)%string
    = (JsDate.Day 1704067200000 ?= JsDate.Day 1704412800000).
Proof.
  assert (four_digit_year 1704067200000) as H1
    by (unfold four_digit_year; lia).
  assert (four_digit_year 1704412800000) as H2
    by (unfold four_digit_year; lia).
  split; [by split |].
  exact (proj1 (isoDate_compare 1704067200000 1704412800000 H1 H2)).
Defined.

(** ** The application as it is set up *)

(** With every history time in the range of [Date], [calculate] returns. *)
Lemma calculate_returns this candles extraData :
  Forall in_date_range (default [] (FearGreed.fearGreedHistory extraData)) →
  ∃ out, FearGreed.calculate this candles extraData = Ok out.
Proof.
  intros Hall.
  destruct (enabled this) eqn:He;
    [| exists []; by apply calculate_disabled].
  destruct (decide (historical_mode candles extraData)) as [[Hh Hc] | Hh].
  - destruct extraData as [index [history |]]; simpl in *; [| done].
    eexists. by apply calculate_historical.
  - destruct (decide (live_mode candles extraData)) as [Hl | Hl];
      [| exists []; by apply calculate_no_mode].
    destruct Hl as (_ & [v Hv] & Hc).
    assert (default [] (FearGreed.fearGreedHistory extraData) = []) as Hnil.
    { unfold historical_mode in Hh.
      destruct (default [] (FearGreed.fearGreedHistory extraData)); [done |].
      destruct Hh. by split. }
    destruct (last candles) as [latest |] eqn:Hlast;
      [| by apply last_None in Hlast].
    eexists. by apply (calculate_live _ _ _ v latest).
Qed.

Lemma pairs_bound (signals : list SignalMarker) (keys : list string) :
  NoDup (pair_of <$> signals) →
  (∀ m, m ∈ signals → time m ∈ keys) →
  (length signals ≤ 2 * length keys)%nat.
Proof.
  intros Hnd Hin. rewrite <- (length_fmap pair_of).
  transitivity (length (list_prod keys [buy; sell])).
  - apply submseteq_length, NoDup_submseteq; [done |].
    intros [t ty] (m & [= -> ->] & Hm)%list_elem_of_fmap.
    apply list_elem_of_In, in_prod.
    + by apply list_elem_of_In, Hin.
    + destruct (type m); simpl; auto.
  - rewrite length_prod. simpl. lia.
Qed.

(** X16.  With the strategy list that the application sets up (one sentiment
    strategy, in whatever state its settings are), candles keyed by dates
    and every history time in the range of [Date], recalculation does not
    throw; the stored signals all sit at keys of candles, carry the
    strategy's id, hold each (time, type) pair at most once, descend by
    time, and are at most two per candle. *)
Theorem recalculateSignals_single_strategy
    (localeCompare : string → string → Z) (this : FearGreedStrategy)
    (state : State) :
  lexical_on_date_keys localeCompare →
  Main.candles state ≠ [] →
  Forall (λ c, isDateKey (Candle.time c) = true) (Main.candles state) →
  Forall in_date_range (Main.fearGreedHistory state) →
  ∃ state',
    _recalculateSignals localeCompare [strategy_object this] state = Ok state'
    ∧ Main.candles state' = Main.candles state
    ∧ Forall (λ m, time m ∈ Candle.time <$> Main.candles state
                   ∧ strategyId m = id this) (Main.signals state')
    ∧ NoDup (pair_of <$> Main.signals state')
    ∧ StronglySorted time_descending (Main.signals state')
    ∧ (length (Main.signals state') ≤ 2 * length (Main.candles state))%nat
    ∧ (enabled this = false → Main.signals state' = []).
Proof.
  intros Hlex Hc Hkeys Hrange.
  destruct (calculate_returns this (Main.candles state) (extraData_of state)
              Hrange) as [out Hout].
  pose proof (calculate_markers _ _ _ _ Hout) as Hmarkers.
  pose proof (calculate_markers_date_keys _ _ _ _ Hkeys Hout) as Hdk.
  assert (∀ m, m ∈ _deduplicateSignals localeCompare out →
               time m ∈ Candle.time <$> Main.candles state
               ∧ strategyId m = id this) as Hsub.
  { intros m Hm%(deduplicateSignals_unique localeCompare out).
    destruct Hm as [i Hi%first_with_pair_elem_of].
    rewrite Forall_forall in Hmarkers.
    by destruct (Hmarkers m Hi) as (? & ? & _). }
  unfold _recalculateSignals.
  rewrite bool_decide_eq_false_2 by (by destruct (Main.candles state)).
  destruct (enabled this) eqn:He.
  - rewrite (collectSignals_concat [strategy_object this] state [out]).
    + simpl. rewrite app_nil_r. eexists. split; [reflexivity |]. simpl.
      split_and!; [done | by apply Forall_forall | | | | done].
      * apply (deduplicateSignals_unique localeCompare out).
      * by apply deduplicateSignals_sorted.
      * rewrite <- (length_fmap Candle.time). apply pairs_bound.
        -- apply (deduplicateSignals_unique localeCompare out).
        -- intros m Hm. by apply Hsub.
    + rewrite filter_cons, filter_nil.
      rewrite decide_True by (unfold Main.isEnabled; simpl;
                               unfold FearGreed.isEnabled; by rewrite He).
      by repeat constructor.
  - rewrite (collectSignals_concat [strategy_object this] state []).
    + simpl. eexists. split; [reflexivity |]. simpl.
      split_and!; try done; try constructor. lia.
    + rewrite filter_cons, filter_nil.
      rewrite decide_False by (unfold Main.isEnabled; simpl;
                                unfold FearGreed.isEnabled; rewrite He;
                                intros []).
      constructor.
Qed.

Lemma recalculateSignals_single_strategy_witness :
  ∃ state',
    _recalculateSignals codeUnitCompare _initStrategies
      {| Main.candles := example_candles;
         Main.fearGreedIndex := Some 50;
         Main.fearGreedHistory := example_history;
         Main.signals := [] |} = Ok state'
    ∧ Main.signals state' =
        [createSignalMarker "2024-01-01" buy "FG:10" "Extreme Fear"
           "feargreed"].
Proof.
  destruct (recalculateSignals_single_strategy codeUnitCompare FearGreed.new
              {| Main.candles := example_candles;
                 Main.fearGreedIndex := Some 50;
                 Main.fearGreedHistory := example_history;
                 Main.signals := [] |})
    as (state' & Hrun & _).
  - intros a b _ _. unfold codeUnitCompare. by destruct (a ?= b)%string.
  - discriminate.
  - repeat constructor.
  - repeat constructor; vm_compute; discriminate.
  - exists state'. split; [exact Hrun |].
    vm_compute in Hrun. by injection Hrun as <-.
Defined.

(** ** [fetchCandlestick]: from rows to candles *)

Lemma forEach_snoc_Ok {A B : Type} (f : A → result B) (g : A → B)
    (arr : list A) (acc : list B) :
  (∀ x, x ∈ arr → f x = Ok (g x)) →
  forEach arr (λ acc x, y ← f x; Ok (acc ++ [y])) acc = Ok (acc ++ (g <$> arr)).
Proof.
  revert acc. induction arr as [| x arr IH]; intros acc Hf; simpl.
  - by rewrite app_nil_r.
  - rewrite (Hf x) by (by left). simpl. rewrite IH.
    + by rewrite <- app_assoc.
    + intros y Hy. apply Hf. by right.
Qed.

Lemma forEach_snoc_Throw {A B : Type} (f : A → result B) (e : Exn)
    (arr : list A) (acc : list B) :
  (∀ x, x ∈ arr → (∃ y, f x = Ok y) ∨ f x = Throw e) →
  Exists (λ x, f x = Throw e) arr →
  forEach arr (λ acc x, y ← f x; Ok (acc ++ [y])) acc = Throw e.
Proof.
  intros Hf Hex. revert acc. induction arr as [| x arr IH]; intros acc.
  - by apply Exists_nil in Hex.
  - simpl. destruct (Hf x ltac:(by left)) as [[y Hy] | Hx].
    + rewrite Hy. simpl. apply IH.
      * intros z Hz. apply Hf. by right.
      * apply Exists_cons in Hex as [Hx | Hex]; [congruence | done].
    + by rewrite Hx.
Qed.

Lemma toCandle_cases parseFloat (row : BitbankFetch.Row) :
  (Z.abs (BitbankFetch.timestamp row) ≤ JsDate.maxTimeValue →
   BitbankFetch.toCandle parseFloat row = Ok (candle_of_row parseFloat row))
  ∧ (JsDate.maxTimeValue < Z.abs (BitbankFetch.timestamp row) →
     BitbankFetch.toCandle parseFloat row
     = Throw (RangeError "Invalid time value")).
Proof.
  unfold BitbankFetch.toCandle, JsDate.toISODate. split; intros H.
  - by rewrite (proj2 (Z.leb_le _ _) H).
  - by rewrite (proj2 (Z.leb_gt _ _) H).
Qed.

(** X17.  From a response that carries rows, [fetchCandlestick] returns one
    candle per row, keyed by the UTC date of the row's time, ascending by
    key (for times in the years 0000 to 9999 and a [localeCompare] that is
    the lexical order on date keys).  One row whose time no [Date] can hold
    makes the whole call throw. *)
Theorem fetchCandlestick_rows (localeCompare : string → string → Z)
    (parseFloat : string → QArith_base.Q) (rows : list BitbankFetch.Row) :
  lexical_on_date_keys localeCompare →
  (Forall (λ row, four_digit_year (BitbankFetch.timestamp row)) rows →
   ∃ candles,
     BitbankFetch.fetchCandlestick_response localeCompare parseFloat
       (response_of_rows rows) = Ok candles
     ∧ candles ≡ₚ candle_of_row parseFloat <$> rows
     ∧ StronglySorted candle_ascending candles
     ∧ Forall (λ c, isDateKey (Candle.time c) = true) candles)
  ∧ (Exists (λ row, JsDate.maxTimeValue < Z.abs (BitbankFetch.timestamp row))
       rows →
     BitbankFetch.fetchCandlestick_response localeCompare parseFloat
       (response_of_rows rows) = Throw (RangeError "Invalid time value")).
Proof.
  intros Hlex.
  unfold BitbankFetch.fetchCandlestick_response, BitbankFetch.map_result.
  simpl. split.
  - intros Hall.
    rewrite (forEach_snoc_Ok _ (candle_of_row parseFloat)).
    + simpl. eexists. split; [reflexivity |].
      assert (Forall (λ c, isDateKey (Candle.time c) = true)
                (candle_of_row parseFloat <$> rows)) as Hkeys.
      { apply Forall_fmap. eapply Forall_impl; [exact Hall |].
        intros row Hrow. by apply isoDate_isDateKey. }
      split_and!; [apply sort_Permutation | | by rewrite sort_Permutation].
      apply (sort_StronglySorted _ _
               (λ c, isDateKey (Candle.time c) = true)); [| | | done].
      * intros x y Hx Hy Hc.
        by apply (lexical_le localeCompare _ _ Hlex Hx Hy).
      * intros x y Hx Hy Hc. unfold candle_ascending, String.le, String.leb.
        rewrite String.compare_antisym, <- (Hlex _ _ Hx Hy).
        apply Z.compare_gt_iff in Hc. by rewrite Hc.
      * intros a b c Hab Hbc. unfold candle_ascending in *.
        by transitivity (Candle.time b).
    + intros row Hrow. apply toCandle_cases.
      rewrite Forall_forall in Hall. specialize (Hall row Hrow).
      unfold four_digit_year, JsDate.maxTimeValue in *. lia.
  - intros Hex.
    rewrite (forEach_snoc_Throw _ (RangeError "Invalid time value"));
      [done | |].
    + intros row _.
      destruct (decide (Z.abs (BitbankFetch.timestamp row)
                        ≤ JsDate.maxTimeValue)) as [Hin | Hout].
      * left. eexists. by apply toCandle_cases.
      * right. apply toCandle_cases. lia.
    + eapply Exists_impl; [exact Hex |].
      intros row Hrow. by apply toCandle_cases.
Qed.

Lemma fetchCandlestick_rows_witness :
  ∃ candles,
    BitbankFetch.fetchCandlestick_response codeUnitCompare
      (λ _, QArith_base.Qmake 0 1) (response_of_rows example_rows)
    = Ok candles
    ∧ Candle.time <$> candles = ["2024-01-01"; "2024-01-05"].
Proof.
  destruct (fetchCandlestick_rows codeUnitCompare
              (λ _, QArith_base.Qmake 0 1) example_rows) as [Hok _].
  - intros a b _ _. unfold codeUnitCompare. by destruct (a ?= b)%string.
  - destruct Hok as (candles & Hrun & _).
    + repeat constructor; unfold four_digit_year; simpl; lia.
    + exists candles. split; [exact Hrun |].
      vm_compute in Hrun. by injection Hrun as <-.
Defined.

(** ** [fetchCandlestickMultiYear]: a failing year is skipped *)

Lemma allCandles_elem_of (fetchCandlestick : Z → result (list Candle.t))
    (currentYear yearsBack : Z) (c : Candle.t) :
  c ∈ BitbankFetch.allCandles fetchCandlestick currentYear yearsBack ↔
  ∃ i candles, 0 ≤ i ≤ yearsBack
    ∧ fetchCandlestick (currentYear - i) = Ok candles ∧ c ∈ candles.
Proof.
  unfold BitbankFetch.allCandles.
  assert (∀ idx : list Z,
    c ∈ foldl (λ allCandles i,
           match fetchCandlestick (currentYear - i) with
           | Ok candles => allCandles ++ candles
           | Throw _ => allCandles
           end) [] idx
    ↔ ∃ i candles, i ∈ idx
        ∧ fetchCandlestick (currentYear - i) = Ok candles ∧ c ∈ candles)
    as Hgen.
  { intros idx. induction idx as [| i idx IH] using rev_ind.
    - simpl. split; [by intros ?%elem_of_nil |].
      by intros (i & cs & ?%elem_of_nil & _).
    - rewrite foldl_snoc. setoid_rewrite elem_of_app.
      setoid_rewrite list_elem_of_singleton.
      destruct (fetchCandlestick (currentYear - i)) as [cs | e] eqn:Hf.
      + rewrite elem_of_app, IH. split.
        * intros [(j & cs' & Hj & Hcs & Hc) | Hc].
          -- exists j, cs'. auto.
          -- exists i, cs. auto.
        * intros (j & cs' & [Hj | ->] & Hcs & Hc).
          -- left. by exists j, cs'.
          -- right. congruence.
      + rewrite IH. split.
        * intros (j & cs' & Hj & Hcs & Hc). exists j, cs'. auto.
        * intros (j & cs' & [Hj | ->] & Hcs & Hc); [| congruence].
          by exists j, cs'. }
  rewrite Hgen. setoid_rewrite elem_of_seqZ.
  split; intros (i & cs & Hi & H); exists i, cs; (split; [lia | done]).
Qed.

(** X18.  [fetchCandlestickMultiYear] returns candles with pairwise
    different keys whose key set is exactly the keys fetched for the years
    [currentYear - yearsBack .. currentYear] whose fetch did not throw: a
    year that fails costs its own candles only, and when every year fails
    the result is empty. *)
Theorem fetchCandlestickMultiYear_keys (localeCompare : string → string → Z)
    (fetchCandlestick : Z → result (list Candle.t))
    (currentYear yearsBack : Z) :
  NoDup (Candle.time <$>
         BitbankFetch.fetchCandlestickMultiYear localeCompare fetchCandlestick
           currentYear yearsBack)
  ∧ (∀ k, k ∈ Candle.time <$>
            BitbankFetch.fetchCandlestickMultiYear localeCompare
              fetchCandlestick currentYear yearsBack
          ↔ ∃ i candles, 0 ≤ i ≤ yearsBack
              ∧ fetchCandlestick (currentYear - i) = Ok candles
              ∧ k ∈ Candle.time <$> candles)
  ∧ ((∀ i, 0 ≤ i ≤ yearsBack →
           ∃ e, fetchCandlestick (currentYear - i) = Throw e) →
     BitbankFetch.fetchCandlestickMultiYear localeCompare fetchCandlestick
       currentYear yearsBack = []).
Proof.
  unfold BitbankFetch.fetchCandlestickMultiYear.
  assert (∀ k, k ∈ Candle.time <$>
                 BitbankFetch.allCandles fetchCandlestick currentYear yearsBack
               ↔ ∃ i candles, 0 ≤ i ≤ yearsBack
                   ∧ fetchCandlestick (currentYear - i) = Ok candles
                   ∧ k ∈ Candle.time <$> candles) as Hkeys.
  { intros k. rewrite list_elem_of_fmap.
    setoid_rewrite allCandles_elem_of. setoid_rewrite list_elem_of_fmap.
    split.
    - intros (c & -> & i & cs & Hi & Hcs & Hc). exists i, cs.
      split_and!; [lia | lia | done |]. by exists c.
    - intros (i & cs & Hi & Hcs & c & -> & Hc). exists c.
      split; [done |]. by exists i, cs. }
  split_and!.
  - destruct (Map_of_entries_spec
                (BitbankFetch.allCandles fetchCandlestick currentYear
                   yearsBack)) as [Hnd Hin].
    unfold Bitbank.uniqueCandles, JsMap.values. rewrite sort_Permutation.
    rewrite keyed_values; [done |].
    intros k c Hkc. by apply Hin in Hkc as [-> _].
  - intros k. by rewrite uniqueCandles_keys.
  - intros Hfail.
    destruct (BitbankFetch.allCandles fetchCandlestick currentYear yearsBack)
      as [| c l] eqn:Hall; [done |].
    assert (c ∈ BitbankFetch.allCandles fetchCandlestick currentYear
                  yearsBack) as Hc by (rewrite Hall; by left).
    apply allCandles_elem_of in Hc as (i & cs & Hi & Hcs & _).
    destruct (Hfail i Hi) as [e He]. congruence.
Qed.

(** ** An exception of a strategy *)

(** X19.  The aggregation has no fence around a strategy: when the
    strategies registered before it return and an enabled strategy throws,
    [_recalculateSignals] throws that exception, whatever is registered
    after it, and no new state is produced. *)
Theorem recalculateSignals_propagates (localeCompare : string → string → Z)
    (before after : list Strategy) (strategy : Strategy) (state : State)
    (outs : list (list SignalMarker)) (e : Exn) :
  Main.candles state ≠ [] →
  Forall2 (λ s out,
      Main.calculate s (Main.candles state) (extraData_of state) = Ok out)
    (filter (λ s, Main.isEnabled s) before) outs →
  Main.isEnabled strategy = true →
  Main.calculate strategy (Main.candles state) (extraData_of state) = Throw e →
  _recalculateSignals localeCompare (before ++ strategy :: after) state
  = Throw e.
Proof.
  intros Hc Hbefore He Hthrow. unfold _recalculateSignals.
  rewrite bool_decide_eq_false_2 by (by destruct (Main.candles state)).
  pose proof (collectSignals_concat before state outs Hbefore) as Hrun.
  unfold collectSignals in *. rewrite forEach_app, Hrun. simpl.
  rewrite He. fold (extraData_of state). by rewrite Hthrow.
Qed.

Lemma recalculateSignals_propagates_witness :
  _recalculateSignals codeUnitCompare
    ([ strategy_object
         {| emits := [createSignalMarker "2024-01-01" buy "A1" "" "first"] |} ]
     ++ strategy_object FearGreed.new
     :: [ strategy_object
            {| emits := [createSignalMarker "2024-01-02" sell "B1" "" "x"] |} ])
    far_state
  = Throw (RangeError "Invalid time value").
Proof.
  apply (recalculateSignals_propagates codeUnitCompare _ _ _ far_state
           [[createSignalMarker "2024-01-01" buy "A1" "" "first"]]).
  - discriminate.
  - repeat constructor.
  - reflexivity.
  - reflexivity.
Defined.
